(** * Content hover coordination (vs/editor/contrib/hover/browser/contentHover.ts)

    A shallow embedding of the hover coordination engine: the anchor model,
    [HoverResult] and its filter, the [ContentHoverComputer], the
    [ContentHoverWidget] state that the controller reads and writes, and the
    [ContentHoverController] state machine, followed by the properties the
    specification states about them.

    Conventions.  JavaScript numbers that denote lines, columns, priorities
    and ordinals are integers ([Z]); pixel quantities are doubles, taken
    as the rationals they are ([Q]), and their addition, which rounds, is
    a parameter.
    Objects compared with [===] carry an identity drawn from an allocation
    counter.  A method that can throw returns [None]. *)

From Stdlib Require Import ZArith QArith Qminmax Qabs List Bool Lia String.
From Stdlib Require Import Sorting.Sorted Sorting.Permutation.
Import ListNotations.

#[local] Open Scope Z_scope.

(* ================================================================== *)
(** ** Positions and ranges (vs/editor/common/core) *)

Record Position : Type := mkPosition {
  lineNumber : Z;
  column : Z
}.

Record Range : Type := mkRange {
  startLineNumber : Z;
  startColumn : Z;
  endLineNumber : Z;
  endColumn : Z
}.

Definition getStartPosition (r : Range) : Position :=
  mkPosition (startLineNumber r) (startColumn r).

Definition getEndPosition (r : Range) : Position :=
  mkPosition (endLineNumber r) (endColumn r).

(** Document order on positions: line first, then column. *)
Definition isBeforeOrEqual (a b : Position) : bool :=
  (lineNumber a <? lineNumber b)
  || ((lineNumber a =? lineNumber b) && (column a <=? column b)).

(** [outer] encloses [inner]: it starts no later and ends no earlier. *)
Definition enclosesRange (outer inner : Range) : bool :=
  isBeforeOrEqual (getStartPosition outer) (getStartPosition inner)
  && isBeforeOrEqual (getEndPosition inner) (getEndPosition outer).

(** Modelled from the spec: [Range.equalsRange] lives in
    vs/editor/common/core/range.ts, which is not part of the sources at
    hand; two ranges are the same range when their four coordinates agree. *)
Definition equalsRange (a b : Range) : bool :=
  (startLineNumber a =? startLineNumber b)
  && (startColumn a =? startColumn b)
  && (endLineNumber a =? endLineNumber b)
  && (endColumn a =? endColumn b).

(** Modelled from the spec: [Range.plusRange] lives in
    vs/editor/common/core/range.ts, which is not part of the sources at
    hand; the spec calls it the union (smallest enclosing range) of two
    ranges: the earlier of the two starts and the later of the two ends. *)
Definition plusRange (a b : Range) : Range :=
  let '(sl, sc) :=
    if startLineNumber b <? startLineNumber a
    then (startLineNumber b, startColumn b)
    else if startLineNumber b =? startLineNumber a
    then (startLineNumber b, Z.min (startColumn b) (startColumn a))
    else (startLineNumber a, startColumn a) in
  let '(el, ec) :=
    if endLineNumber b >? endLineNumber a
    then (endLineNumber b, endColumn b)
    else if endLineNumber b =? endLineNumber a
    then (endLineNumber b, Z.max (endColumn b) (endColumn a))
    else (endLineNumber a, endColumn a) in
  mkRange sl sc el ec.

(* ================================================================== *)
(** ** Anchors and hover parts (vs/editor/contrib/hover/browser/hoverTypes) *)

Inductive HoverAnchorType : Type :=
| AnchorRange
| AnchorForeignElement.

Definition HoverAnchorType_eqb (a b : HoverAnchorType) : bool :=
  match a, b with
  | AnchorRange, AnchorRange => true
  | AnchorForeignElement, AnchorForeignElement => true
  | _, _ => false
  end.

(** Modelled from the spec: the anchor classes live in hoverTypes.ts, which
    is not part of the sources at hand.  Section 3 of the spec gives an
    anchor a type, a range, a priority, an optional initial pointer
    position and the [supportsMarkerHover] flag (absent reads as false). *)
Record HoverAnchor : Type := mkHoverAnchor {
  anchorType : HoverAnchorType;
  priority : Z;
  anchorRange : Range;
  anchorInitialMousePosX : option Q;
  anchorInitialMousePosY : option Q;
  supportsMarkerHover : bool
}.

(** [new HoverRangeAnchor(priority, range, posx, posy)]. *)
Definition HoverRangeAnchor (prio : Z) (r : Range) (posx posy : option Q)
  : HoverAnchor :=
  mkHoverAnchor AnchorRange prio r posx posy false.

(** Modelled from the spec: [HoverAnchor.equals] lives in hoverTypes.ts,
    which is not part of the sources at hand.  Section 3: two anchors are
    equal iff same type and same range. *)
Definition anchorEquals (this other : HoverAnchor) : bool :=
  HoverAnchorType_eqb (anchorType this) (anchorType other)
  && equalsRange (anchorRange this) (anchorRange other).

(** [IHoverPart]: [owner] is the identity of the producing participant. *)
Record IHoverPart : Type := mkHoverPart {
  owner : nat;
  partRange : Range;
  forceShowAtRange : bool;
  isBeforeContent : bool;
  isValidForHoverAnchor : HoverAnchor -> bool
}.

(* ================================================================== *)
(** ** HoverResult and FilteredHoverResult

    Both classes are immutable.  The first argument of each constructor is
    the identity of the object ([===] compares identities); a
    [FilteredHoverResult] holds a reference to its [original]. *)

Inductive HoverResult : Type :=
| HoverResult_new
    (oid : nat) (anchor : HoverAnchor) (messages : list IHoverPart)
    (isComplete : bool)
| FilteredHoverResult_new
    (oid : nat) (original : HoverResult)
    (anchor : HoverAnchor) (messages : list IHoverPart) (isComplete : bool).

Definition objectId (r : HoverResult) : nat :=
  match r with
  | HoverResult_new oid _ _ _ => oid
  | FilteredHoverResult_new oid _ _ _ _ => oid
  end.

Definition resultAnchor (r : HoverResult) : HoverAnchor :=
  match r with
  | HoverResult_new _ a _ _ => a
  | FilteredHoverResult_new _ _ a _ _ => a
  end.

Definition resultMessages (r : HoverResult) : list IHoverPart :=
  match r with
  | HoverResult_new _ _ ms _ => ms
  | FilteredHoverResult_new _ _ _ ms _ => ms
  end.

Definition resultIsComplete (r : HoverResult) : bool :=
  match r with
  | HoverResult_new _ _ _ c => c
  | FilteredHoverResult_new _ _ _ _ c => c
  end.

(** The unfiltered result a result stands for: itself, or the [original]
    a filtered result was made from. *)
Fixpoint unfiltered (r : HoverResult) : HoverResult :=
  match r with
  | HoverResult_new _ _ _ _ => r
  | FilteredHoverResult_new _ original _ _ _ => unfiltered original
  end.

(** [a === b] on results. *)
Definition sameObject (a b : HoverResult) : bool :=
  Nat.eqb (objectId a) (objectId b).

(** [a === b] on [HoverResult | null]. *)
Definition sameReference (a b : option HoverResult) : bool :=
  match a, b with
  | None, None => true
  | Some x, Some y => sameObject x y
  | _, _ => false
  end.

(** [HoverResult.filter] and its override [FilteredHoverResult.filter].
    [fresh] is the next unused object identity; the second component of
    the result is the next unused identity afterwards, so an allocation
    shows as an increment. *)
Fixpoint HoverResult_filter (this : HoverResult) (anchor : HoverAnchor)
    (fresh : nat) : HoverResult * nat :=
  match this with
  | HoverResult_new _ thisAnchor thisMessages thisIsComplete =>
      let filteredMessages :=
        List.filter (fun m => isValidForHoverAnchor m anchor) thisMessages in
      if Nat.eqb (List.length filteredMessages) (List.length thisMessages)
      then (this, fresh)
      else (FilteredHoverResult_new fresh this thisAnchor filteredMessages
              thisIsComplete, S fresh)
  | FilteredHoverResult_new _ original _ _ _ =>
      HoverResult_filter original anchor fresh
  end.

(* ================================================================== *)
(** ** The editor, its decorations and mouse events *)

Record IModelDecoration : Type := mkDecoration {
  decorationRange : Range;
  isWholeLine : bool;
  showIfCollapsed : bool
}.

(** What the controller and the computer read from [ICodeEditor].
    [viewLineMinColumn r] is the model column of the first column of the
    view line on which [r] starts (the three coordinate-converter calls of
    [computeHoverRanges] taken together). *)
Record ICodeEditor : Type := mkEditor {
  hasModel : bool;
  getLineCount : Z;
  getLineMaxColumn : Z -> Z;
  getLineDecorations : Z -> list IModelDecoration;
  viewLineMinColumn : Range -> Z;
  hoverSticky : bool;
  hoverAbove : bool;
  typicalHalfwidthCharacterWidth : Q
}.

Inductive MouseTargetType : Type :=
| CONTENT_TEXT
| CONTENT_EMPTY
| OTHER_TARGET.

Record IEditorMouseEvent : Type := mkMouseEvent {
  targetType : MouseTargetType;
  targetRange : Range;
  detailIsAfterLines : bool;
  detailHorizontalDistanceToText : option Q;
  posx : Q;
  posy : Q
}.

Inductive HoverStartMode : Type := Delayed | Immediate.
Inductive HoverStartSource : Type := Mouse | Keyboard.

(* ================================================================== *)
(** ** Participants (content providers) *)

(** A node of the hover's DOM fragment: a row appended by a participant,
    or the status bar with its actions. *)
Inductive Node : Type :=
| HoverRow (html : string)
| StatusBarNode (actions : list string).

(** What one call of [renderHoverParts] does to the render context: the
    rows appended to the fragment, the actions added to the status bar and
    the colour picker handed to [setColorPicker], if any. *)
Record RenderedHoverParts : Type := mkRendered {
  renderedRows : list string;
  renderedActions : list string;
  renderedColorPicker : option nat
}.

(** [IEditorHoverParticipant]; [participantId] is the identity of the
    object, the optional methods are options. *)
Record IEditorHoverParticipant : Type := mkParticipant {
  participantId : nat;
  hoverOrdinal : Z;
  suggestHoverAnchor : option (IEditorMouseEvent -> option HoverAnchor);
  createLoadingMessage : option (HoverAnchor -> option IHoverPart);
  participantComputeSync :
    HoverAnchor -> list IModelDecoration -> list (option IHoverPart);
  renderHoverParts : list IHoverPart -> RenderedHoverParts
}.

(* ================================================================== *)
(** ** Array helpers *)

Section Arrays.
Context {A : Type}.

(** [Array.prototype.sort(compare)]: the sort is stable, and [x] goes
    before [y] when [compare x y] is not positive. *)
Fixpoint sortInsert (compare : A -> A -> Z) (x : A) (l : list A) : list A :=
  match l with
  | [] => [x]
  | y :: l' =>
      if compare x y <=? 0 then x :: y :: l'
      else y :: sortInsert compare x l'
  end.

Definition arraySort (compare : A -> A -> Z) (l : list A) : list A :=
  List.fold_right (sortInsert compare) [] l.

(** Modelled from the spec: [coalesce] lives in vs/base/common/arrays.ts,
    which is not part of the sources at hand; it drops the empty
    (null or undefined) entries of an array. *)
Fixpoint coalesce (l : list (option A)) : list A :=
  match l with
  | [] => []
  | Some x :: l' => x :: coalesce l'
  | None :: l' => coalesce l'
  end.
End Arrays.

(* ================================================================== *)
(** ** ContentHoverComputer *)

Module ContentHoverComputer.

Record t : Type := mk {
  editor : ICodeEditor;
  participants : list IEditorHoverParticipant;
  anchor : option HoverAnchor;
  shouldFocus : bool;
  source : HoverStartSource;
  insistOnKeepingHoverVisible : bool
}.

(** [new ContentHoverComputer(editor, participants)]. *)
Definition new (ed : ICodeEditor) (ps : list IEditorHoverParticipant) : t :=
  mk ed ps None false Mouse false.

(** The callback handed to [filter] in [_getLineDecorations]. *)
Definition keepsDecoration (lineNumber maxColumn : Z) (a : HoverAnchor)
    (d : IModelDecoration) : bool :=
  if isWholeLine d then true
  else
    let startColumn' :=
      if startLineNumber (decorationRange d) =? lineNumber
      then startColumn (decorationRange d) else 1 in
    let endColumn' :=
      if endLineNumber (decorationRange d) =? lineNumber
      then endColumn (decorationRange d) else maxColumn in
    if showIfCollapsed d then
      if (startColumn' >? startColumn (anchorRange a) + 1)
         || (endColumn (anchorRange a) - 1 >? endColumn')
      then false else true
    else
      if (startColumn' >? startColumn (anchorRange a))
         || (endColumn (anchorRange a) >? endColumn')
      then false else true.

(** [ContentHoverComputer._getLineDecorations(editor, anchor)]; the
    editor has a model here ([IActiveCodeEditor]). *)
Definition _getLineDecorations (ed : ICodeEditor) (a : HoverAnchor)
  : list IModelDecoration :=
  if negb (HoverAnchorType_eqb (anchorType a) AnchorRange)
     && negb (supportsMarkerHover a)
  then []
  else
    let lineNumber := startLineNumber (anchorRange a) in
    if lineNumber >? getLineCount ed then []
    else
      let maxColumn := getLineMaxColumn ed lineNumber in
      List.filter (keepsDecoration lineNumber maxColumn a)
        (getLineDecorations ed lineNumber).

(** [computeSync()]: the loop concatenates onto [result], then
    [coalesce]. *)
Definition computeSync (this : t) : list IHoverPart :=
  if negb (hasModel (editor this)) then []
  else
    match anchor this with
    | None => []
    | Some a =>
        let lineDecorations := _getLineDecorations (editor this) a in
        let result :=
          List.fold_left
            (fun result participant =>
               result ++ participantComputeSync participant a lineDecorations)
            (participants this) [] in
        coalesce result
    end.

End ContentHoverComputer.

(* ================================================================== *)
(** ** ContentHoverVisibleData and ContentHoverWidget *)

Definition Qltb (a b : Q) : bool := negb (Qle_bool b a).

Record Rect : Type := mkRect {
  left : Q;
  top : Q;
  width : Q;
  height : Q
}.

Module ContentHoverVisibleData.

(** [highlightDecoration] is what [disposables] keeps alive: the
    decoration that underlines the highlight range. *)
Record t : Type := mk {
  colorPicker : option nat;
  showAtPosition : Position;
  showAtSecondaryPosition : Position;
  preferAbove : bool;
  stoleFocus : bool;
  source : HoverStartSource;
  isBeforeContent : bool;
  initialMousePosX : option Q;
  initialMousePosY : option Q;
  highlightDecoration : option Range;
  closestMouseDistance : option Q
}.

Definition withInitialMousePos (x y : Q) (d : t) : t :=
  mk (colorPicker d) (showAtPosition d) (showAtSecondaryPosition d)
     (preferAbove d) (stoleFocus d) (source d) (isBeforeContent d)
     (Some x) (Some y) (highlightDecoration d) (closestMouseDistance d).

Definition withClosestMouseDistance (c : Q) (d : t) : t :=
  mk (colorPicker d) (showAtPosition d) (showAtSecondaryPosition d)
     (preferAbove d) (stoleFocus d) (source d) (isBeforeContent d)
     (initialMousePosX d) (initialMousePosY d) (highlightDecoration d)
     (Some c).

End ContentHoverVisibleData.

Module ContentHoverWidget.

Module VD := ContentHoverVisibleData.

(** [contentsDomNode] is the list of children of
    [_hover.contentsDomNode]; [domNodePagePosition] is what
    [dom.getDomNodePagePosition(this.getDomNode())] reads. *)
Record t : Type := mk {
  _visibleData : option VD.t;
  contentsDomNode : list Node;
  domNodePagePosition : Rect
}.

Definition new (rect : Rect) : t := mk None [] rect.

(** [get position()]: [null] if the hover is not visible. *)
Definition position (w : t) : option Position :=
  option_map VD.showAtPosition (_visibleData w).

Definition isColorPickerVisible (w : t) : bool :=
  match _visibleData w with
  | Some d => match VD.colorPicker d with Some _ => true | None => false end
  | None => false
  end.

Definition isVisibleFromKeyboard (w : t) : bool :=
  match _visibleData w with
  | Some d => match VD.source d with Keyboard => true | Mouse => false end
  | None => false
  end.

(** [_hoverVisibleKey] is set to [!!this._visibleData] on every write. *)
Definition isVisible (w : t) : bool :=
  match _visibleData w with Some _ => true | None => false end.

Definition _setVisibleData (d : option VD.t) (w : t) : t :=
  mk d (contentsDomNode w) (domNodePagePosition w).

(** [isMouseGettingCloser(posx, posy)]; [distance] is
    [computeDistanceFromPointToRectangle] and [plus] the addition of
    doubles, which rounds; comparing two doubles and taking the lesser of
    two are exact. *)
Definition isMouseGettingCloser
    (distance : Q -> Q -> Q -> Q -> Q -> Q -> Q) (plus : Q -> Q -> Q)
    (posx posy : Q) (w : t) : bool * t :=
  match _visibleData w with
  | None => (false, w)
  | Some d =>
      match VD.initialMousePosX d, VD.initialMousePosY d with
      | Some initialX, Some initialY =>
          let widgetRect := domNodePagePosition w in
          let closest :=
            match VD.closestMouseDistance d with
            | Some c => c
            | None =>
                distance initialX initialY (left widgetRect) (top widgetRect)
                  (width widgetRect) (height widgetRect)
            end in
          let distance' :=
            distance posx posy (left widgetRect) (top widgetRect)
              (width widgetRect) (height widgetRect) in
          if Qltb (plus closest 4%Q) distance'
          then (false,
                _setVisibleData (Some (VD.withClosestMouseDistance closest d)) w)
          else (true,
                _setVisibleData
                  (Some (VD.withClosestMouseDistance (Qmin closest distance') d))
                  w)
      | _, _ =>
          (false, _setVisibleData (Some (VD.withInitialMousePos posx posy d)) w)
      end
  end.

Definition showAt (node : list Node) (visibleData : VD.t) (w : t) : t :=
  mk (Some visibleData) node (domNodePagePosition w).

Definition hide (w : t) : t :=
  match _visibleData w with
  | Some _ => _setVisibleData None w
  | None => w
  end.

Definition clear (w : t) : t :=
  mk (_visibleData w) [] (domNodePagePosition w).

End ContentHoverWidget.

(* ================================================================== *)
(** ** Parts of the program kept as parameters *)

(** [canAdoptVisibleHover this lastAnchor showAtPosition] is a method of
    the anchor classes (hoverTypes.ts, not among the sources at hand); the
    spec leaves the relation to the anchor.
    [computeDistanceFromPointToRectangle pointX pointY left top width
    height] takes a square root of floating-point numbers.
    [plusDouble a b] is [a + b] as JavaScript computes it on doubles: the
    exact sum rounded to a double. *)
Record Externals : Type := mkExternals {
  canAdoptVisibleHover : HoverAnchor -> HoverAnchor -> Position -> bool;
  computeDistanceFromPointToRectangle : Q -> Q -> Q -> Q -> Q -> Q -> Q;
  plusDouble : Q -> Q -> Q
}.

(* ================================================================== *)
(** ** ContentHoverController: state *)

(** The calls the controller makes on its [HoverOperation], most recent
    first.  The operation itself (debouncing, running the computer,
    emitting results) is outside the embedding; its results come back as
    events.  A start in [Immediate] mode may report its first result
    before it returns: [start] is the last thing a trigger does, so that
    result is the [OnResult] event that follows the trigger in a run, and
    the state a method is said to return with is the state at the call of
    [start]. *)
Inductive HoverOperationCall : Type :=
| OperationCancel
| OperationStart (mode : HoverStartMode).

(** The payload of [HoverOperation.onResult]. *)
Record OperationResult : Type := mkOperationResult {
  value : list IHoverPart;
  operationIsComplete : bool;
  hasLoadingMessage : bool
}.

Record ContentHoverController : Type := mkController {
  _editor : ICodeEditor;
  _participants : list IEditorHoverParticipant;
  _widget : ContentHoverWidget.t;
  _computer : ContentHoverComputer.t;
  _hoverOperation : list HoverOperationCall;
  _currentResult : option HoverResult;
  nextObjectId : nat
}.

Definition withWidget (w : ContentHoverWidget.t) (c : ContentHoverController)
  : ContentHoverController :=
  mkController (_editor c) (_participants c) w (_computer c)
    (_hoverOperation c) (_currentResult c) (nextObjectId c).

Definition withComputer (k : ContentHoverComputer.t)
    (c : ContentHoverController) : ContentHoverController :=
  mkController (_editor c) (_participants c) (_widget c) k
    (_hoverOperation c) (_currentResult c) (nextObjectId c).

Definition withHoverOperation (o : list HoverOperationCall)
    (c : ContentHoverController) : ContentHoverController :=
  mkController (_editor c) (_participants c) (_widget c) (_computer c)
    o (_currentResult c) (nextObjectId c).

Definition withCurrentResult (r : option HoverResult)
    (c : ContentHoverController) : ContentHoverController :=
  mkController (_editor c) (_participants c) (_widget c) (_computer c)
    (_hoverOperation c) r (nextObjectId c).

Definition withNextObjectId (n : nat) (c : ContentHoverController)
  : ContentHoverController :=
  mkController (_editor c) (_participants c) (_widget c) (_computer c)
    (_hoverOperation c) (_currentResult c) n.

(** [new ContentHoverController(editor, ...)]: [registry] is
    [HoverParticipantRegistry.getAll()], the participant constructors;
    [rect] is where the DOM lays the widget out. *)
Definition ContentHoverController_new (editor : ICodeEditor)
    (registry : list (ICodeEditor -> IEditorHoverParticipant)) (rect : Rect)
  : ContentHoverController :=
  let participants :=
    arraySort (fun p1 p2 => hoverOrdinal p1 - hoverOrdinal p2)
      (List.map (fun participant => participant editor) registry) in
  mkController editor participants (ContentHoverWidget.new rect)
    (ContentHoverComputer.new editor participants) [] None 0%nat.

(* ================================================================== *)
(** ** The controller's methods: a state and exception monad *)

Definition M (A : Type) : Type :=
  ContentHoverController -> option (A * ContentHoverController).

Definition ret {A : Type} (a : A) : M A := fun c => Some (a, c).

Definition bind {A B : Type} (m : M A) (k : A -> M B) : M B :=
  fun c => match m c with
           | Some (a, c') => k a c'
           | None => None
           end.

(** A JavaScript exception ([TypeError]) that nothing catches. *)
Definition throw {A : Type} : M A := fun _ => None.

Definition get : M ContentHoverController := fun c => Some (c, c).

Definition modify (f : ContentHoverController -> ContentHoverController)
  : M unit :=
  fun c => Some (tt, f c).

Declare Scope hover_scope.
Delimit Scope hover_scope with hover.
Notation "x <- m ;; k" := (bind m (fun x => k))
  (at level 61, m at next level, right associativity) : hover_scope.
Notation "m ;; k" := (bind m (fun _ => k))
  (at level 61, right associativity) : hover_scope.
#[local] Open Scope hover_scope.

(** The state a method leaves behind, when it returns. *)
Definition exec {A : Type} (m : M A) (c : ContentHoverController)
  : option ContentHoverController :=
  option_map snd (m c).

(** [ContentHoverController.computeHoverRanges]. *)
Record HoverRanges : Type := mkHoverRanges {
  showAtPosition : Position;
  showAtSecondaryPosition : Position;
  highlightRange : Range
}.

(** One turn of the loop over [messages]; the loop variables are
    [renderStartColumn], [highlightRange] and [forceShowAtRange]. *)
Definition computeHoverRanges_body (anchorLineNumber startColumnBoundary : Z)
    (vars : Z * Range * option Range) (msg : IHoverPart)
  : Z * Range * option Range :=
  let '(renderStartColumn, highlightRange, forceShowAtRange') := vars in
  let highlightRange := plusRange highlightRange (partRange msg) in
  let renderStartColumn :=
    if (startLineNumber (partRange msg) =? anchorLineNumber)
       && (endLineNumber (partRange msg) =? anchorLineNumber)
    then Z.max (Z.min renderStartColumn (startColumn (partRange msg)))
           startColumnBoundary
    else renderStartColumn in
  let forceShowAtRange' :=
    if forceShowAtRange msg then Some (partRange msg) else forceShowAtRange' in
  (renderStartColumn, highlightRange, forceShowAtRange').

(** [None] is the [TypeError] of reading [messages[0].range] on an empty
    array. *)
Definition computeHoverRanges (editor : ICodeEditor) (anchorRange : Range)
    (messages : list IHoverPart) : option HoverRanges :=
  let startColumnBoundary :=
    if hasModel editor then viewLineMinColumn editor anchorRange else 1 in
  let anchorLineNumber := startLineNumber anchorRange in
  match messages with
  | [] => None
  | m0 :: _ =>
      let '(renderStartColumn, highlightRange, forceShowAtRange) :=
        List.fold_left
          (computeHoverRanges_body anchorLineNumber startColumnBoundary)
          messages (startColumn anchorRange, partRange m0, None) in
      Some
        (mkHoverRanges
           (match forceShowAtRange with
            | Some r => getStartPosition r
            | None => mkPosition anchorLineNumber (startColumn anchorRange)
            end)
           (match forceShowAtRange with
            | Some r => getStartPosition r
            | None => mkPosition anchorLineNumber renderStartColumn
            end)
           highlightRange)
  end.

(* ================================================================== *)
(** ** ContentHoverController: methods *)

(** The loop of [_renderMessages] over the participants: each one renders
    the parts it owns, when it owns any. *)
Definition renderParticipants (participants : list IEditorHoverParticipant)
    (messages : list IHoverPart) : list RenderedHoverParts :=
  List.flat_map
    (fun participant =>
       let hoverParts :=
         List.filter
           (fun msg => Nat.eqb (owner msg) (participantId participant))
           messages in
       if (0 <? List.length hoverParts)%nat
       then [renderHoverParts participant hoverParts]
       else [])
    participants.

(** The colour picker the render context ends with: the last one set. *)
Definition lastColorPicker (rendered : list RenderedHoverParts) : option nat :=
  List.fold_left
    (fun colorPicker r =>
       match renderedColorPicker r with
       | Some widget => Some widget
       | None => colorPicker
       end)
    rendered None.

(** The document fragment [_renderMessages] builds. *)
Definition renderFragment (rendered : list RenderedHoverParts) : list Node :=
  let rows := List.map HoverRow (List.flat_map renderedRows rendered) in
  match List.flat_map renderedActions rendered with
  | [] => rows
  | actions => rows ++ [StatusBarNode actions]
  end.

Definition _renderMessages (anchor : HoverAnchor) (messages : list IHoverPart)
  : M unit :=
  this <- get ;;
  match computeHoverRanges (_editor this) (anchorRange anchor) messages with
  | None => throw
  | Some ranges =>
      let rendered := renderParticipants (_participants this) messages in
      let fragment := renderFragment rendered in
      let isBeforeContent' := List.existsb isBeforeContent messages in
      match fragment with
      | [] => ret tt
      | _ :: _ =>
          modify
            (fun this =>
               withWidget
                 (ContentHoverWidget.showAt fragment
                    (ContentHoverVisibleData.mk
                       (lastColorPicker rendered)
                       (showAtPosition ranges)
                       (showAtSecondaryPosition ranges)
                       (hoverAbove (_editor this))
                       (ContentHoverComputer.shouldFocus (_computer this))
                       (ContentHoverComputer.source (_computer this))
                       isBeforeContent'
                       (anchorInitialMousePosX anchor)
                       (anchorInitialMousePosY anchor)
                       (Some (highlightRange ranges))
                       None)
                    (_widget this))
                 this)
      end
  end.

Definition _setCurrentResult (hoverResult : option HoverResult) : M unit :=
  this <- get ;;
  if sameReference (_currentResult this) hoverResult then ret tt
  else
    let hoverResult :=
      match hoverResult with
      | Some r =>
          if Nat.eqb (List.length (resultMessages r)) 0 then None else Some r
      | None => None
      end in
    modify (withCurrentResult hoverResult) ;;
    match hoverResult with
    | Some r => _renderMessages (resultAnchor r) (resultMessages r)
    | None => modify (fun this => withWidget (ContentHoverWidget.hide (_widget this)) this)
    end.

Definition _startHoverOperationIfNecessary (anchor : HoverAnchor)
    (mode : HoverStartMode) (source : HoverStartSource) (focus : bool)
    (insistOnKeepingHoverVisible : bool) : M unit :=
  this <- get ;;
  if match ContentHoverComputer.anchor (_computer this) with
     | Some current => anchorEquals current anchor
     | None => false
     end
  then ret tt
  else
    modify (fun this =>
      withHoverOperation (OperationCancel :: _hoverOperation this) this) ;;
    modify (fun this =>
      withComputer
        (ContentHoverComputer.mk
           (ContentHoverComputer.editor (_computer this))
           (ContentHoverComputer.participants (_computer this))
           (Some anchor) focus source insistOnKeepingHoverVisible)
        this) ;;
    modify (fun this =>
      withHoverOperation (OperationStart mode :: _hoverOperation this) this).

(** [new HoverResult(anchor, messages, isComplete)]. *)
Definition newHoverResult (anchor : HoverAnchor) (messages : list IHoverPart)
    (isComplete : bool) : M HoverResult :=
  this <- get ;;
  modify (withNextObjectId (S (nextObjectId this))) ;;
  ret (HoverResult_new (nextObjectId this) anchor messages isComplete).

(** [result.filter(anchor)], allocating from the controller's heap. *)
Definition filterResult (result : HoverResult) (anchor : HoverAnchor)
  : M HoverResult :=
  this <- get ;;
  let '(filtered, fresh) :=
    HoverResult_filter result anchor (nextObjectId this) in
  modify (withNextObjectId fresh) ;;
  ret filtered.

(** Runs a widget method that returns a value. *)
Definition onWidget {A : Type}
    (method : ContentHoverWidget.t -> A * ContentHoverWidget.t) : M A :=
  this <- get ;;
  let '(a, w) := method (_widget this) in
  modify (withWidget w) ;;
  ret a.

(** The value of [isGettingCloser] in [_startShowingOrUpdateHover]:
    [hoverIsSticky && mouseEvent && this._widget.isMouseGettingCloser(...)]. *)
Definition isGettingCloser (ext : Externals)
    (mouseEvent : option IEditorMouseEvent) : M bool :=
  this <- get ;;
  if hoverSticky (_editor this)
  then match mouseEvent with
       | Some e =>
           onWidget
             (ContentHoverWidget.isMouseGettingCloser
                (computeDistanceFromPointToRectangle ext) (plusDouble ext)
                (posx e) (posy e))
       | None => ret false
       end
  else ret false.

Definition _startShowingOrUpdateHover (ext : Externals)
    (anchor : option HoverAnchor) (mode : HoverStartMode)
    (source : HoverStartSource) (focus : bool)
    (mouseEvent : option IEditorMouseEvent) : M bool :=
  this <- get ;;
  match ContentHoverWidget.position (_widget this), _currentResult this with
  | Some widgetPosition, Some currentResult =>
      (* The hover is currently visible *)
      gettingCloser <- isGettingCloser ext mouseEvent ;;
      if gettingCloser
      then
        match anchor with
        | Some a => _startHoverOperationIfNecessary a mode source focus true
        | None => ret tt
        end ;;
        ret true
      else
        match anchor with
        | None => _setCurrentResult None ;; ret false
        | Some a =>
            if anchorEquals (resultAnchor currentResult) a then ret true
            else if negb (canAdoptVisibleHover ext a
                            (resultAnchor currentResult) widgetPosition)
            then
              _setCurrentResult None ;;
              _startHoverOperationIfNecessary a mode source focus false ;;
              ret true
            else
              filtered <- filterResult currentResult a ;;
              _setCurrentResult (Some filtered) ;;
              _startHoverOperationIfNecessary a mode source focus false ;;
              ret true
        end
  | _, _ =>
      (* The hover is not visible *)
      match anchor with
      | Some a =>
          _startHoverOperationIfNecessary a mode source focus false ;;
          ret true
      | None => ret false
      end
  end.

Definition maybeShowAt (ext : Externals) (mouseEvent : IEditorMouseEvent)
  : M bool :=
  this <- get ;;
  let suggested :=
    List.flat_map
      (fun participant =>
         match suggestHoverAnchor participant with
         | Some suggest =>
             match suggest mouseEvent with
             | Some anchor => [anchor]
             | None => []
             end
         | None => []
         end)
      (_participants this) in
  let rangeAnchor :=
    HoverRangeAnchor 0 (targetRange mouseEvent)
      (Some (posx mouseEvent)) (Some (posy mouseEvent)) in
  let onText :=
    match targetType mouseEvent with
    | CONTENT_TEXT => [rangeAnchor]
    | _ => []
    end in
  let onEmpty :=
    match targetType mouseEvent with
    | CONTENT_EMPTY =>
        let epsilon := (typicalHalfwidthCharacterWidth (_editor this) / 2)%Q in
        if negb (detailIsAfterLines mouseEvent)
           && match detailHorizontalDistanceToText mouseEvent with
              | Some d => Qltb d epsilon
              | None => false
              end
        then [rangeAnchor]
        else []
    | _ => []
    end in
  let anchorCandidates := suggested ++ onText ++ onEmpty in
  if Nat.eqb (List.length anchorCandidates) 0
  then _startShowingOrUpdateHover ext None Delayed Mouse false (Some mouseEvent)
  else
    let sorted :=
      arraySort (fun a b => priority b - priority a) anchorCandidates in
    _startShowingOrUpdateHover ext (List.hd_error sorted) Delayed Mouse false
      (Some mouseEvent).

Definition startShowingAtRange (ext : Externals) (range : Range)
    (mode : HoverStartMode) (source : HoverStartSource) (focus : bool)
  : M unit :=
  _startShowingOrUpdateHover ext (Some (HoverRangeAnchor 0 range None None))
    mode source focus None ;;
  ret tt.

Definition hide : M unit :=
  modify (fun this =>
    withComputer
      (ContentHoverComputer.mk
         (ContentHoverComputer.editor (_computer this))
         (ContentHoverComputer.participants (_computer this))
         None
         (ContentHoverComputer.shouldFocus (_computer this))
         (ContentHoverComputer.source (_computer this))
         (ContentHoverComputer.insistOnKeepingHoverVisible (_computer this)))
      this) ;;
  modify (fun this =>
    withHoverOperation (OperationCancel :: _hoverOperation this) this) ;;
  _setCurrentResult None.

Definition isColorPickerVisible (this : ContentHoverController) : bool :=
  ContentHoverWidget.isColorPickerVisible (_widget this).

Definition isVisibleFromKeyboard (this : ContentHoverController) : bool :=
  ContentHoverWidget.isVisibleFromKeyboard (_widget this).

Definition isVisible (this : ContentHoverController) : bool :=
  ContentHoverWidget.isVisible (_widget this).

(** The loop of [_addLoadingMessage]: the first participant that creates
    a loading message for [anchor] decides. *)
Fixpoint firstLoadingMessage (participants : list IEditorHoverParticipant)
    (anchor : HoverAnchor) : option IHoverPart :=
  match participants with
  | [] => None
  | participant :: rest =>
      match createLoadingMessage participant with
      | Some create =>
          match create anchor with
          | Some loadingMessage => Some loadingMessage
          | None => firstLoadingMessage rest anchor
          end
      | None => firstLoadingMessage rest anchor
      end
  end.

Definition _addLoadingMessage (this : ContentHoverController)
    (result : list IHoverPart) : list IHoverPart :=
  match ContentHoverComputer.anchor (_computer this) with
  | Some anchor =>
      match firstLoadingMessage (_participants this) anchor with
      | Some loadingMessage => result ++ [loadingMessage]
      | None => result
      end
  | None => result
  end.

Definition _withResult (hoverResult : HoverResult) : M unit :=
  this <- get ;;
  if match ContentHoverWidget.position (_widget this), _currentResult this with
     | Some _, Some currentResult => resultIsComplete currentResult
     | _, _ => false
     end
  then
    (* The hover is visible with a previous complete result. *)
    if negb (resultIsComplete hoverResult) then ret tt
    else if ContentHoverComputer.insistOnKeepingHoverVisible (_computer this)
            && Nat.eqb (List.length (resultMessages hoverResult)) 0
    then ret tt
    else _setCurrentResult (Some hoverResult)
  else _setCurrentResult (Some hoverResult).

(** The listener the constructor registers on [_hoverOperation.onResult]. *)
Definition onOperationResult (result : OperationResult) : M unit :=
  this <- get ;;
  match ContentHoverComputer.anchor (_computer this) with
  | None => ret tt
  | Some anchor =>
      let messages :=
        if hasLoadingMessage result
        then _addLoadingMessage this (value result)
        else value result in
      hoverResult <- newHoverResult anchor messages (operationIsComplete result) ;;
      _withResult hoverResult
  end.

(** The listener the constructor registers on
    [TokenizationRegistry.onDidChange]. *)
Definition onTokenizationChange : M unit :=
  this <- get ;;
  match ContentHoverWidget.position (_widget this), _currentResult this with
  | Some _, Some currentResult =>
      modify (fun this =>
        withWidget (ContentHoverWidget.clear (_widget this)) this) ;;
      _setCurrentResult (Some currentResult)
  | _, _ => ret tt
  end.

(* ================================================================== *)
(** ** The controller as a state machine *)

(** Everything that can happen to a controller: the calls of its public
    methods and the events its constructor listens to.  The focus and
    scroll pass-throughs touch nothing of the state kept here. *)
Inductive Event : Type :=
| MaybeShowAt (mouseEvent : IEditorMouseEvent)
| StartShowingAtRange (range : Range) (mode : HoverStartMode)
    (source : HoverStartSource) (focus : bool)
| Hide
| KeydownEscape
| OnResult (result : OperationResult)
| OnTokenizationChange.

Definition step (ext : Externals) (e : Event) : M unit :=
  match e with
  | MaybeShowAt mouseEvent => maybeShowAt ext mouseEvent ;; ret tt
  | StartShowingAtRange range mode source focus =>
      startShowingAtRange ext range mode source focus
  | Hide => hide
  | KeydownEscape => hide
  | OnResult result => onOperationResult result
  | OnTokenizationChange => onTokenizationChange
  end.

Fixpoint run (ext : Externals) (events : list Event) : M unit :=
  match events with
  | [] => ret tt
  | e :: rest => step ext e ;; run ext rest
  end.

(** The current result, when there is one, has at least one message. *)
Definition currentResultNonEmpty (this : ContentHoverController) : Prop :=
  match _currentResult this with
  | Some r => resultMessages r <> []
  | None => True
  end.

(** The overlay is visible: the widget has a position and the controller
    a current result (the test that opens [_startShowingOrUpdateHover]). *)
Definition hoverIsVisible (this : ContentHoverController) : bool :=
  match ContentHoverWidget.position (_widget this), _currentResult this with
  | Some _, Some _ => true
  | _, _ => false
  end.

(* ================================================================== *)
(** ** Definitions that follow the words of the specification *)

(** [h] is the smallest enclosing range of the ranges [rs]: it encloses
    each of them, and every range that does so encloses [h]. *)
Definition smallestEnclosingRange (h : Range) (rs : list Range) : Prop :=
  (forall r, In r rs -> enclosesRange h r = true)
  /\ (forall h', (forall r, In r rs -> enclosesRange h' r = true) ->
                 enclosesRange h' h = true).




(** The parts of the visible data that are on display; the pointer
    bookkeeping of [isMouseGettingCloser] is not. *)
Definition shownData (d : ContentHoverVisibleData.t)
  : option nat * Position * Position * bool * bool * HoverStartSource * bool
    * option Range :=
  (ContentHoverVisibleData.colorPicker d,
   ContentHoverVisibleData.showAtPosition d,
   ContentHoverVisibleData.showAtSecondaryPosition d,
   ContentHoverVisibleData.preferAbove d,
   ContentHoverVisibleData.stoleFocus d,
   ContentHoverVisibleData.source d,
   ContentHoverVisibleData.isBeforeContent d,
   ContentHoverVisibleData.highlightDecoration d).

(** What the overlay displays: whether and where it shows, and its
    content. *)
Definition displayed (this : ContentHoverController) :=
  (option_map shownData (ContentHoverWidget._visibleData (_widget this)),
   ContentHoverWidget.contentsDomNode (_widget this)).

(** The participants in ordinal order. *)
Definition byOrdinal (p q : IEditorHoverParticipant) : Prop :=
  hoverOrdinal p <= hoverOrdinal q.

(** The union of the part ranges, as the loop of [computeHoverRanges]
    accumulates it. *)
Definition unionOfParts (h : Range) (messages : list IHoverPart) : Range :=
  List.fold_left (fun h m => plusRange h (partRange m)) messages h.

(* ================================================================== *)
(** ** Total correctness of the controller's methods *)

(** What the constructor fixes once and for all. *)
Definition static (c : ContentHoverController) :=
  (_editor c, _participants c,
   ContentHoverComputer.editor (_computer c),
   ContentHoverComputer.participants (_computer c)).

(** The invariant of the controller: the constructor's choices stand and
    the current result is not empty. *)
Definition Inv v (c : ContentHoverController) : Prop :=
  static c = v /\ currentResultNonEmpty c.

(** From every state that satisfies [P], the method [m] returns (it does
    not throw), and its value and final state satisfy [Q]. *)
Definition hoare {A : Type} (P : ContentHoverController -> Prop) (m : M A)
    (Q : A -> ContentHoverController -> Prop) : Prop :=
  forall c, P c -> exists a c', m c = Some (a, c') /\ Q a c'.

(* ================================================================== *)
(** ** Sample data: the examples of section 8 of the specification *)

Module Sample.

(** Anchors on line 4: columns 3-3 (twice, as two objects) and 7-7. *)
Definition anchorA : HoverAnchor :=
  HoverRangeAnchor 0 (mkRange 4 3 4 3) None None.
Definition anchorB : HoverAnchor :=
  HoverRangeAnchor 0 (mkRange 4 3 4 3) (Some 90%Q) (Some 90%Q).
Definition anchorFar : HoverAnchor :=
  HoverRangeAnchor 0 (mkRange 4 7 4 7) None None.
Definition anchorWide : HoverAnchor :=
  HoverRangeAnchor 0 (mkRange 4 1 4 10) None None.

(** A part that stays valid wherever the pointer goes, and one that is
    valid only where it was computed. *)
Definition partWide : IHoverPart :=
  mkHoverPart 1 (mkRange 4 1 4 10) false false (fun _ => true).
Definition partNarrow : IHoverPart :=
  mkHoverPart 2 (mkRange 4 3 4 3) false false
    (fun a => equalsRange (anchorRange a) (mkRange 4 3 4 3)).
Definition partInside : IHoverPart :=
  mkHoverPart 1 (mkRange 4 3 4 5) false false (fun _ => true).

Definition P1 : IEditorHoverParticipant :=
  mkParticipant 1 0 None None
    (fun _ _ => [Some partWide])
    (fun _ => mkRendered ["wide"%string] [] None).
Definition P2 : IEditorHoverParticipant :=
  mkParticipant 2 1 None None
    (fun _ _ => [None; Some partNarrow])
    (fun _ => mkRendered ["narrow"%string] [] None).

Definition wholeLine : IModelDecoration :=
  mkDecoration (mkRange 4 1 4 1) true false.
Definition colsOneTwo : IModelDecoration :=
  mkDecoration (mkRange 4 1 4 2) false false.

Definition editor : ICodeEditor :=
  mkEditor true 10 (fun _ => 80)
    (fun l => if l =? 4 then [wholeLine; colsOneTwo] else [])
    (fun _ => 1) true false 8%Q.

(** An anchor adopts a hover shown on its own line; distances are
    measured from the widget's corner along the axes; the sums of the
    sample distances are doubles, so that no sum rounds. *)
Definition ext : Externals :=
  mkExternals
    (fun a _ showAt => lineNumber showAt =? startLineNumber (anchorRange a))
    (fun px py l t _ _ => (Qabs (px - l) + Qabs (py - t))%Q)
    Qplus.

Definition rect : Rect := mkRect 0 0 100 50.

(** The registry lists [P2] before [P1]. *)
Definition controller : ContentHoverController :=
  ContentHoverController_new editor [fun _ => P2; fun _ => P1] rect.

Definition original : HoverResult :=
  HoverResult_new 0 anchorA [partWide; partNarrow] true.

(** [original.filter(anchorFar)]: a [FilteredHoverResult], object 1. *)
Definition filtered : HoverResult :=
  fst (HoverResult_filter original anchorFar 1).

Definition mouseOnText (r : Range) (x y : Q) : IEditorMouseEvent :=
  mkMouseEvent CONTENT_TEXT r false None x y.

(** The state the sample controller is in after a run of events. *)
Definition stateAfter (events : list Event) : ContentHoverController :=
  match exec (run ext events) controller with
  | Some c => c
  | None => controller
  end.

(** A complete two-part result shown on a keyboard request. *)
Definition showComplete : list Event :=
  [StartShowingAtRange (mkRange 4 3 4 3) Immediate Keyboard false;
   OnResult (mkOperationResult [partWide; partNarrow] true false)].

Definition visibleComplete : ContentHoverController := stateAfter showComplete.

(** The pointer goes onto columns 3-3, a result with one part is shown
    ([isComplete] as given), and the pointer moves towards the hover onto
    columns 7-7. *)
Definition approach (isComplete : bool) : list Event :=
  [MaybeShowAt (mouseOnText (mkRange 4 3 4 3) 100 100);
   OnResult (mkOperationResult [partWide] isComplete false);
   MaybeShowAt (mouseOnText (mkRange 4 7 4 7) 90 90)].

Definition insistingComplete : ContentHoverController :=
  stateAfter (approach true).

Definition insisting : ContentHoverController :=
  stateAfter (approach false).

End Sample.

(* ================================================================== *)
(** ** Further notions used to state properties of the code *)

(** What [_setCurrentResult] stores for [hoverResult]: a result without
    messages is stored as [null]. *)
Definition storedResult (hoverResult : option HoverResult)
  : option HoverResult :=
  match hoverResult with
  | Some r =>
      if Nat.eqb (List.length (resultMessages r)) 0 then None else Some r
  | None => None
  end.

(** The identities in a result were handed out before [n], and an original
    is older than the result filtered from it. *)
Fixpoint idsBelow (n : nat) (r : HoverResult) : Prop :=
  match r with
  | HoverResult_new oid _ _ _ => (oid < n)%nat
  | FilteredHoverResult_new oid original _ _ _ =>
      (oid < n)%nat /\ idsBelow oid original
  end.

(** In the log of calls on the operation (most recent first), every start
    comes right after a cancel. *)
Fixpoint startsFollowCancels (log : list HoverOperationCall) : Prop :=
  match log with
  | [] => True
  | OperationCancel :: rest => startsFollowCancels rest
  | OperationStart _ :: OperationCancel :: rest => startsFollowCancels rest
  | OperationStart _ :: _ => False
  end.

(** The last call on the operation was a start. *)
Definition operationStarted (log : list HoverOperationCall) : bool :=
  match log with
  | OperationStart _ :: _ => true
  | _ => false
  end.

Definition hasAnchor (k : ContentHoverComputer.t) : bool :=
  match ContentHoverComputer.anchor k with
  | Some _ => true
  | None => false
  end.

(** The computer's anchor equals [a] (the first test of
    [_startHoverOperationIfNecessary]). *)
Definition computesFor (this : ContentHoverController) (a : HoverAnchor)
  : bool :=
  match ContentHoverComputer.anchor (_computer this) with
  | Some current => anchorEquals current a
  | None => false
  end.

(** What holds of a controller between any two events. *)
Record wellFormed (c : ContentHoverController) : Prop := mkWellFormed {
  wf_log : startsFollowCancels (_hoverOperation c);
  wf_anchor : operationStarted (_hoverOperation c) = hasAnchor (_computer c);
  wf_visible : isVisible c = true -> _currentResult c <> None;
  wf_ids : match _currentResult c with
           | Some r => idsBelow (nextObjectId c) r
           | None => True
           end
}.

(** The array [anchorCandidates] that [maybeShowAt] builds. *)
Definition anchorCandidates (this : ContentHoverController)
    (mouseEvent : IEditorMouseEvent) : list HoverAnchor :=
  let suggested :=
    List.flat_map
      (fun participant =>
         match suggestHoverAnchor participant with
         | Some suggest =>
             match suggest mouseEvent with
             | Some anchor => [anchor]
             | None => []
             end
         | None => []
         end)
      (_participants this) in
  let rangeAnchor :=
    HoverRangeAnchor 0 (targetRange mouseEvent)
      (Some (posx mouseEvent)) (Some (posy mouseEvent)) in
  let onText :=
    match targetType mouseEvent with
    | CONTENT_TEXT => [rangeAnchor]
    | _ => []
    end in
  let onEmpty :=
    match targetType mouseEvent with
    | CONTENT_EMPTY =>
        let epsilon := (typicalHalfwidthCharacterWidth (_editor this) / 2)%Q in
        if negb (detailIsAfterLines mouseEvent)
           && match detailHorizontalDistanceToText mouseEvent with
              | Some d => Qltb d epsilon
              | None => false
              end
        then [rangeAnchor]
        else []
    | _ => []
    end in
  suggested ++ onText ++ onEmpty.

(** The parts whose range sits on one line, the line [line]. *)
Definition sitsOnLine (line : Z) (m : IHoverPart) : bool :=
  (startLineNumber (partRange m) =? line)
  && (endLineNumber (partRange m) =? line).

(** The least start column among [parts], capped by [c]. *)
Definition leastStartColumn (c : Z) (parts : list IHoverPart) : Z :=
  List.fold_left (fun c m => Z.min c (startColumn (partRange m))) parts c.

(** The range of the last part that forces its position, if any. *)
Definition lastForcedRange (messages : list IHoverPart) : option Range :=
  List.fold_left
    (fun forced m => if forceShowAtRange m then Some (partRange m) else forced)
    messages None.

(** The state [_startHoverOperationIfNecessary] leaves when it starts. *)
Definition startedAt (c : ContentHoverController) (a : HoverAnchor)
    (mode : HoverStartMode) (source : HoverStartSource) (focus insist : bool)
  : ContentHoverController :=
  mkController (_editor c) (_participants c) (_widget c)
    (ContentHoverComputer.mk
       (ContentHoverComputer.editor (_computer c))
       (ContentHoverComputer.participants (_computer c))
       (Some a) focus source insist)
    (OperationStart mode :: OperationCancel :: _hoverOperation c)
    (_currentResult c) (nextObjectId c).


(** The effect of [_startHoverOperationIfNecessary] on the computer and on
    the operation, from [c] to [c']: none when the computer's anchor
    equals [a]; otherwise the operation is cancelled and started in
    [mode], and the computer is set up for [a]. *)
Definition startsUnlessComputing (c c' : ContentHoverController)
    (a : HoverAnchor) (mode : HoverStartMode) (source : HoverStartSource)
    (focus insist : bool) : Prop :=
  if computesFor c a
  then _computer c' = _computer c /\ _hoverOperation c' = _hoverOperation c
  else
    _hoverOperation c'
    = OperationStart mode :: OperationCancel :: _hoverOperation c
    /\ _computer c'
       = ContentHoverComputer.mk
           (ContentHoverComputer.editor (_computer c))
           (ContentHoverComputer.participants (_computer c))
           (Some a) focus source insist.

(** The parts of the unfiltered original of [r] that are valid for [a]. *)
Definition keptParts (r : HoverResult) (a : HoverAnchor) : list IHoverPart :=
  List.filter (fun m => isValidForHoverAnchor m a)
    (resultMessages (unfiltered r)).

Module Trace.

(** The sample hover shown under the pointer for columns 3-3 of line 4,
    with a complete one-part result. *)
Definition shownAtPointer : ContentHoverController :=
  Sample.stateAfter
    [MaybeShowAt (Sample.mouseOnText (mkRange 4 3 4 3) 100 100);
     OnResult (mkOperationResult [Sample.partWide] true false)].


(** A candidate anchor on another line than the one the hover shows at. *)
Definition anchorBelow : HoverAnchor :=
  HoverRangeAnchor 0 (mkRange 5 1 5 1) None None.

End Trace.

(** The guard of [_withResult]: the hover is visible with a complete
    result, and the new result is incomplete, or is empty while the
    computer insists on keeping the hover visible. *)
Definition holdsBack (this : ContentHoverController) (isComplete : bool)
    (messages : list IHoverPart) : bool :=
  match ContentHoverWidget.position (_widget this), _currentResult this with
  | Some _, Some currentResult =>
      resultIsComplete currentResult
      && (negb isComplete
          || (ContentHoverComputer.insistOnKeepingHoverVisible (_computer this)
              && Nat.eqb (List.length messages) 0))
  | _, _ => false
  end.

(** The messages the result listener builds from what the operation
    reports. *)
Definition reportedMessages (this : ContentHoverController)
    (result : OperationResult) : list IHoverPart :=
  if hasLoadingMessage result
  then _addLoadingMessage this (value result)
  else value result.

(** The left boundary [computeHoverRanges] clamps the render column to. *)
Definition startColumnBoundary (editor : ICodeEditor) (anchorRange : Range)
  : Z :=
  if hasModel editor then viewLineMinColumn editor anchorRange else 1.

(** The distance [isMouseGettingCloser] measures from a point to the
    widget. *)
Definition distanceToWidget (distance : Q -> Q -> Q -> Q -> Q -> Q -> Q)
    (w : ContentHoverWidget.t) (x y : Q) : Q :=
  let widgetRect := ContentHoverWidget.domNodePagePosition w in
  distance x y (left widgetRect) (top widgetRect) (width widgetRect)
    (height widgetRect).

(** No participant of the list creates a loading message for [a]. *)
Definition noLoadingMessage (a : HoverAnchor)
    (participants : list IEditorHoverParticipant) : Prop :=
  Forall
    (fun p =>
       match createLoadingMessage p with
       | Some create => create a = None
       | None => True
       end)
    participants.

(* ================================================================== *)
(** * Properties *)

(** ** Ranges *)

Lemma isBeforeOrEqual_spec (a b : Position) :
  isBeforeOrEqual a b = true <->
  lineNumber a < lineNumber b
  \/ (lineNumber a = lineNumber b /\ column a <= column b).
Proof.
  unfold isBeforeOrEqual.
  rewrite orb_true_iff, andb_true_iff, Z.ltb_lt, Z.eqb_eq, Z.leb_le.
  reflexivity.
Qed.

Lemma enclosesRange_spec (outer inner : Range) :
  enclosesRange outer inner = true <->
  (startLineNumber outer < startLineNumber inner
   \/ (startLineNumber outer = startLineNumber inner
       /\ startColumn outer <= startColumn inner))
  /\ (endLineNumber inner < endLineNumber outer
      \/ (endLineNumber inner = endLineNumber outer
          /\ endColumn inner <= endColumn outer)).
Proof.
  unfold enclosesRange.
  rewrite andb_true_iff, !isBeforeOrEqual_spec. reflexivity.
Qed.

Lemma enclosesRange_refl (r : Range) : enclosesRange r r = true.
Proof. apply enclosesRange_spec. lia. Qed.

Lemma enclosesRange_trans (a b c : Range) :
  enclosesRange a b = true -> enclosesRange b c = true ->
  enclosesRange a c = true.
Proof. rewrite !enclosesRange_spec. lia. Qed.

(** Case analysis on the two three-way comparisons of [plusRange]. *)
Ltac plusRange_cases :=
  unfold plusRange;
  repeat match goal with
    | |- context [?x <? ?y] => destruct (Z.ltb_spec x y)
    | |- context [?x >? ?y] =>
        rewrite (Z.gtb_ltb x y); destruct (Z.ltb_spec y x)
    | |- context [?x =? ?y] => destruct (Z.eqb_spec x y)
    end; cbn [startLineNumber startColumn endLineNumber endColumn].

Lemma plusRange_contains_l (a b : Range) : enclosesRange (plusRange a b) a = true.
Proof. apply enclosesRange_spec. plusRange_cases; lia. Qed.

Lemma plusRange_contains_r (a b : Range) : enclosesRange (plusRange a b) b = true.
Proof. apply enclosesRange_spec. plusRange_cases; lia. Qed.

Lemma plusRange_least (h a b : Range) :
  enclosesRange h a = true -> enclosesRange h b = true ->
  enclosesRange h (plusRange a b) = true.
Proof. rewrite !enclosesRange_spec. plusRange_cases; lia. Qed.

Lemma plusRange_idem (r : Range) : plusRange r r = r.
Proof. destruct r. plusRange_cases; f_equal; lia. Qed.

(** ** HoverResult.filter *)

Lemma filter_length_le {A : Type} (f : A -> bool) (l : list A) :
  (List.length (List.filter f l) <= List.length l)%nat.
Proof.
  induction l as [|x l IH]; simpl; [lia|].
  destruct (f x); simpl; lia.
Qed.

(** A filter that keeps the length keeps the list. *)
Lemma filter_same_length {A : Type} (f : A -> bool) (l : list A) :
  List.length (List.filter f l) = List.length l -> List.filter f l = l.
Proof.
  induction l as [|x l IH]; simpl; [reflexivity|].
  destruct (f x); simpl; intros H.
  - f_equal. apply IH. lia.
  - pose proof (filter_length_le f l). lia.
Qed.

Lemma filter_all_valid {A : Type} (f : A -> bool) (l : list A) :
  Forall (fun x => f x = true) l -> List.filter f l = l.
Proof.
  induction 1 as [|x l Hx _ IH]; simpl; [reflexivity|].
  rewrite Hx, IH. reflexivity.
Qed.

(** A filtered result hands the filter to its original. *)
Lemma HoverResult_filter_unfiltered (R : HoverResult) (A : HoverAnchor)
    (fresh : nat) :
  HoverResult_filter R A fresh = HoverResult_filter (unfiltered R) A fresh.
Proof.
  induction R as [oid a ms c | oid original IH a ms c]; simpl.
  - reflexivity.
  - exact IH.
Qed.

Lemma unfiltered_idem (R : HoverResult) : unfiltered (unfiltered R) = unfiltered R.
Proof. induction R; simpl; auto. Qed.

(** Filtering never changes which unfiltered result stands behind. *)
Lemma unfiltered_filter (R : HoverResult) (A : HoverAnchor) (fresh : nat) :
  unfiltered (fst (HoverResult_filter R A fresh)) = unfiltered R.
Proof.
  induction R as [oid a ms c | oid original IH a ms c]; simpl.
  - destruct (Nat.eqb _ _); reflexivity.
  - exact IH.
Qed.

(** The parts of a filter's result: the original's parts that are valid. *)
Lemma HoverResult_filter_messages (R : HoverResult) (A : HoverAnchor)
    (fresh : nat) :
  resultMessages (fst (HoverResult_filter R A fresh))
  = List.filter (fun m => isValidForHoverAnchor m A)
      (resultMessages (unfiltered R)).
Proof.
  induction R as [oid a ms c | oid original IH a ms c]; simpl.
  - destruct (Nat.eqb_spec
                (List.length (List.filter (fun m => isValidForHoverAnchor m A) ms))
                (List.length ms)) as [E|E]; simpl.
    + symmetry. apply filter_same_length. exact E.
    + reflexivity.
  - exact IH.
Qed.

(** The anchor and the completeness flag survive a filter. *)
Lemma HoverResult_filter_anchor (R : HoverResult) (A : HoverAnchor)
    (fresh : nat) :
  resultAnchor (fst (HoverResult_filter R A fresh)) = resultAnchor (unfiltered R)
  /\ resultIsComplete (fst (HoverResult_filter R A fresh))
     = resultIsComplete (unfiltered R).
Proof.
  induction R as [oid a ms c | oid original IH a ms c]; simpl.
  - destruct (Nat.eqb _ _); simpl; split; reflexivity.
  - exact IH.
Qed.

(** C2.  Filtering a result by [A1] and then filtering what comes out by
    [A2] yields the same parts as filtering the result directly by [A2],
    and as filtering its unfiltered original by [A2]: exactly the parts of
    the original that are valid for [A2].  Nothing is lost along a chain
    of filters, whatever object identities are handed out on the way. *)
Theorem filter_chain_same_parts :
  forall (R : HoverResult) (A1 A2 : HoverAnchor) (fresh : nat),
    let R1 := fst (HoverResult_filter R A1 fresh) in
    let fresh1 := snd (HoverResult_filter R A1 fresh) in
    resultMessages (fst (HoverResult_filter R1 A2 fresh1))
    = resultMessages (fst (HoverResult_filter R A2 fresh))
    /\ resultMessages (fst (HoverResult_filter R1 A2 fresh1))
       = resultMessages (fst (HoverResult_filter (unfiltered R) A2 fresh))
    /\ resultMessages (fst (HoverResult_filter R1 A2 fresh1))
       = List.filter (fun m => isValidForHoverAnchor m A2)
           (resultMessages (unfiltered R)).
Proof.
  intros R A1 A2 fresh R1 fresh1. subst R1 fresh1.
  rewrite !HoverResult_filter_messages.
  rewrite unfiltered_filter, unfiltered_idem.
  repeat split; reflexivity.
Qed.

(** C4, as the code has it.  When every part of the unfiltered original
    of [R] is valid for [A], [R.filter(A)] is that original, the very same
    object, and nothing is allocated.  For a result that is not a
    [FilteredHoverResult] the original is [R] itself. *)
Theorem filter_returns_original_instance :
  forall (R : HoverResult) (A : HoverAnchor) (fresh : nat),
    Forall (fun m => isValidForHoverAnchor m A = true)
      (resultMessages (unfiltered R)) ->
    HoverResult_filter R A fresh = (unfiltered R, fresh)
    /\ (forall oid a ms c, R = HoverResult_new oid a ms c ->
          HoverResult_filter R A fresh = (R, fresh)).
Proof.
  intros R A fresh Hall.
  assert (E : HoverResult_filter R A fresh = (unfiltered R, fresh)).
  { rewrite HoverResult_filter_unfiltered.
    destruct (unfiltered R) as [oid a ms c | oid o a ms c] eqn:EU.
    - simpl in *. rewrite (filter_all_valid _ _ Hall), Nat.eqb_refl.
      reflexivity.
    - exfalso. clear Hall. induction R; simpl in EU; [discriminate | auto]. }
  split; [exact E|].
  intros oid a ms c ->. exact E.
Qed.

Lemma filter_returns_original_instance_witness :
  HoverResult_filter Sample.original Sample.anchorA 1
  = (Sample.original, 1%nat).
Proof.
  apply (filter_returns_original_instance Sample.original Sample.anchorA 1).
  repeat constructor.
Defined.

(** C4, as stated, fails on a [FilteredHoverResult].  [Sample.filtered]
    holds the one part that is valid for [anchorFar]; every part of it is
    valid for [anchorFar], yet filtering it by [anchorFar] again returns a
    new object (identity 2, not 1), and filtering it by [anchorA], for
    which its part is valid too, returns the two-part original. *)
Lemma filter_of_filtered_is_another_object :
  Forall (fun m => isValidForHoverAnchor m Sample.anchorFar = true)
    (resultMessages Sample.filtered)
  /\ sameObject (fst (HoverResult_filter Sample.filtered Sample.anchorFar 2))
       Sample.filtered = false
  /\ snd (HoverResult_filter Sample.filtered Sample.anchorFar 2) = 3%nat
  /\ Forall (fun m => isValidForHoverAnchor m Sample.anchorA = true)
       (resultMessages Sample.filtered)
  /\ sameObject (fst (HoverResult_filter Sample.filtered Sample.anchorA 2))
       Sample.filtered = false
  /\ List.map owner (resultMessages Sample.filtered) = [1%nat]
  /\ List.map owner
       (resultMessages (fst (HoverResult_filter Sample.filtered Sample.anchorA 2)))
     = [1%nat; 2%nat].
Proof.
  repeat split; try reflexivity; repeat constructor.
Qed.

(** ** computeHoverRanges *)

Lemma computeHoverRanges_body_highlight (line boundary : Z)
    (messages : list IHoverPart) (vars : Z * Range * option Range) :
  snd (fst (List.fold_left (computeHoverRanges_body line boundary) messages vars))
  = unionOfParts (snd (fst vars)) messages.
Proof.
  revert vars. induction messages as [|m ms IH]; intros vars; simpl.
  - reflexivity.
  - rewrite IH. destruct vars as [[rsc h] f]. reflexivity.
Qed.

Lemma computeHoverRanges_highlight (ed : ICodeEditor) (anchorRange : Range)
    (m0 : IHoverPart) (ms : list IHoverPart) :
  exists ranges,
    computeHoverRanges ed anchorRange (m0 :: ms) = Some ranges
    /\ highlightRange ranges = unionOfParts (partRange m0) (m0 :: ms).
Proof.
  unfold computeHoverRanges.
  match goal with
  | |- context [List.fold_left ?f ?l ?v] =>
      pose proof (computeHoverRanges_body_highlight
                    (startLineNumber anchorRange)
                    (if hasModel ed then viewLineMinColumn ed anchorRange else 1)
                    l v) as H;
      destruct (List.fold_left f l v) as [[rsc h] force]
  end.
  simpl in H. eexists. split; [reflexivity|]. simpl. exact H.
Qed.

Lemma unionOfParts_contains_start (h : Range) (messages : list IHoverPart) :
  enclosesRange (unionOfParts h messages) h = true.
Proof.
  revert h. induction messages as [|m ms IH]; intros h; simpl.
  - apply enclosesRange_refl.
  - eapply enclosesRange_trans; [apply IH | apply plusRange_contains_l].
Qed.

Lemma unionOfParts_contains_part (h : Range) (messages : list IHoverPart)
    (m : IHoverPart) :
  In m messages -> enclosesRange (unionOfParts h messages) (partRange m) = true.
Proof.
  revert h. induction messages as [|m' ms IH]; intros h Hin; simpl in *.
  - contradiction.
  - destruct Hin as [->|Hin].
    + eapply enclosesRange_trans;
        [apply unionOfParts_contains_start | apply plusRange_contains_r].
    + apply IH. exact Hin.
Qed.

Lemma unionOfParts_least (h' h : Range) (messages : list IHoverPart) :
  enclosesRange h' h = true ->
  (forall m, In m messages -> enclosesRange h' (partRange m) = true) ->
  enclosesRange h' (unionOfParts h messages) = true.
Proof.
  revert h. induction messages as [|m ms IH]; intros h Hh Hall; simpl.
  - exact Hh.
  - apply IH.
    + apply plusRange_least; [exact Hh | apply Hall; left; reflexivity].
    + intros m' Hin. apply Hall. right. exact Hin.
Qed.

(** C6, as the code has it.  For every anchor range and every non-empty
    list of parts, [computeHoverRanges] returns, and its highlight range is
    the smallest enclosing range of the ranges of the parts; the anchor's
    range takes no part in it. *)
Theorem highlightRange_is_union_of_parts :
  forall (ed : ICodeEditor) (anchorRange : Range) (m0 : IHoverPart)
         (ms : list IHoverPart),
  exists ranges,
    computeHoverRanges ed anchorRange (m0 :: ms) = Some ranges
    /\ smallestEnclosingRange (highlightRange ranges)
         (List.map partRange (m0 :: ms)).
Proof.
  intros ed anchorRange m0 ms.
  destruct (computeHoverRanges_highlight ed anchorRange m0 ms)
    as (ranges & Hsome & Hhl).
  exists ranges. split; [exact Hsome|]. rewrite Hhl. split.
  - intros r Hin. apply in_map_iff in Hin. destruct Hin as (m & <- & Hin).
    apply unionOfParts_contains_part. exact Hin.
  - intros h' Hall. apply unionOfParts_least.
    + apply Hall. left. reflexivity.
    + intros m Hin. apply Hall. apply in_map. exact Hin.
Qed.

(** C6, as stated, fails: with an anchor on columns 1-10 of line 4 and a
    single part on columns 3-5, the highlight range is the part's range,
    which does not enclose the anchor's. *)
Lemma highlightRange_leaves_anchor_out :
  exists ranges,
    computeHoverRanges Sample.editor (anchorRange Sample.anchorWide)
      [Sample.partInside] = Some ranges
    /\ highlightRange ranges = mkRange 4 3 4 5
    /\ ~ smallestEnclosingRange (highlightRange ranges)
           (anchorRange Sample.anchorWide
              :: List.map partRange [Sample.partInside]).
Proof.
  eexists. split; [reflexivity|]. split; [reflexivity|].
  intros [Hall _].
  specialize (Hall (anchorRange Sample.anchorWide) (or_introl eq_refl)).
  discriminate Hall.
Qed.

(** ** ContentHoverComputer *)





(** ** Reasoning about the controller's methods *)

Lemma hoare_bind {A B : Type} P Q R (m : M A) (k : A -> M B) :
  hoare P m Q -> (forall a, hoare (Q a) (k a) R) -> hoare P (bind m k) R.
Proof.
  intros Hm Hk c Hc. destruct (Hm c Hc) as (a & c1 & E & Hq).
  destruct (Hk a c1 Hq) as (b & c2 & E2 & Hr).
  exists b, c2. unfold bind. rewrite E. auto.
Qed.

Lemma hoare_ret {A : Type} (P : ContentHoverController -> Prop) (a : A) Q :
  (forall c, P c -> Q a c) -> hoare P (ret a) Q.
Proof. intros H c Hc. exists a, c. split; [reflexivity | auto]. Qed.

Lemma hoare_modify (P : ContentHoverController -> Prop) f Q :
  (forall c, P c -> Q tt (f c)) -> hoare P (modify f) Q.
Proof. intros H c Hc. exists tt, (f c). split; [reflexivity | auto]. Qed.

Lemma hoare_get_bind {B : Type} (P : ContentHoverController -> Prop)
    (k : ContentHoverController -> M B) R :
  (forall this, P this -> hoare (fun c => c = this) (k this) R) ->
  hoare P (bind get k) R.
Proof.
  intros H c Hc. destruct (H c Hc c eq_refl) as (b & c' & E & Hr).
  exists b, c'. split; [exact E | exact Hr].
Qed.

Lemma hoare_pre {A : Type} (P P' : ContentHoverController -> Prop) (m : M A) Q :
  hoare P' m Q -> (forall c, P c -> P' c) -> hoare P m Q.
Proof. intros H HP c Hc. apply H. auto. Qed.

Lemma hoare_post {A : Type} (P : ContentHoverController -> Prop) (m : M A)
    (Q Q' : A -> ContentHoverController -> Prop) :
  hoare P m Q' -> (forall a c, Q' a c -> Q a c) -> hoare P m Q.
Proof.
  intros H HQ c Hc. destruct (H c Hc) as (a & c' & E & Hq).
  exists a, c'. auto.
Qed.

Lemma renderMessages_ok v (a : HoverAnchor) (ms : list IHoverPart) :
  ms <> [] -> hoare (Inv v) (_renderMessages a ms) (fun _ => Inv v).
Proof.
  intros Hne. destruct ms as [|m0 ms]; [congruence|].
  unfold _renderMessages. apply hoare_get_bind. intros this Hinv.
  destruct (computeHoverRanges_highlight (_editor this) (anchorRange a) m0 ms)
    as (ranges & -> & _).
  destruct (renderFragment _).
  - apply hoare_ret. intros c ->. exact Hinv.
  - apply hoare_modify. intros c ->. exact Hinv.
Qed.

Lemma setCurrentResult_ok v (hr : option HoverResult) :
  hoare (Inv v) (_setCurrentResult hr) (fun _ => Inv v).
Proof.
  unfold _setCurrentResult. apply hoare_get_bind. intros this Hinv.
  destruct (sameReference _ _).
  { apply hoare_ret. intros c ->. exact Hinv. }
  destruct Hinv as [Hs Hn].
  assert (Hhide : hoare (Inv v)
            (modify (fun this => withWidget (ContentHoverWidget.hide (_widget this)) this))
            (fun _ => Inv v)).
  { apply hoare_modify. intros c Hc. exact Hc. }
  destruct hr as [r|].
  - destruct (Nat.eqb_spec (List.length (resultMessages r)) 0) as [E|E].
    + apply hoare_bind with (Q := fun _ => Inv v).
      * apply hoare_modify. intros c ->. split; [exact Hs | exact I].
      * intros _. exact Hhide.
    + assert (Hne : resultMessages r <> []).
      { intros E'. rewrite E' in E. apply E. reflexivity. }
      apply hoare_bind with (Q := fun _ => Inv v).
      * apply hoare_modify. intros c ->. split; [exact Hs | exact Hne].
      * intros _. apply renderMessages_ok. exact Hne.
  - apply hoare_bind with (Q := fun _ => Inv v).
    + apply hoare_modify. intros c ->. split; [exact Hs | exact I].
    + intros _. exact Hhide.
Qed.

(** A method that only rewrites the widget, the operation log, the
    allocation counter or the computer's per-operation fields keeps the
    invariant. *)
Ltac keeps_inv :=
  let c := fresh "c" in
  let Hc := fresh "Hc" in
  intros c Hc; try subst c;
  match goal with
  | H : Inv _ _ |- Inv _ _ => exact H
  end.

Lemma startHoverOperationIfNecessary_ok v anchor mode source focus insist :
  hoare (Inv v)
    (_startHoverOperationIfNecessary anchor mode source focus insist)
    (fun _ => Inv v).
Proof.
  unfold _startHoverOperationIfNecessary.
  apply hoare_get_bind. intros this Hinv.
  destruct (match ContentHoverComputer.anchor (_computer this) with
            | Some current => anchorEquals current anchor
            | None => false
            end).
  - apply hoare_ret. keeps_inv.
  - apply hoare_bind with (Q := fun _ => Inv v).
    + apply hoare_modify. intros c ->. exact Hinv.
    + intros _. apply hoare_bind with (Q := fun _ => Inv v).
      * apply hoare_modify. intros c Hc. exact Hc.
      * intros _. apply hoare_modify. intros c Hc. exact Hc.
Qed.

Lemma newHoverResult_ok v anchor messages isComplete :
  hoare (Inv v) (newHoverResult anchor messages isComplete)
    (fun r c => Inv v c /\ resultMessages r = messages).
Proof.
  unfold newHoverResult. apply hoare_get_bind. intros this Hinv.
  apply hoare_bind with (Q := fun _ => Inv v).
  - apply hoare_modify. intros c ->. exact Hinv.
  - intros _. apply hoare_ret. intros c Hc. split; [exact Hc | reflexivity].
Qed.

Lemma filterResult_ok v result anchor :
  hoare (Inv v) (filterResult result anchor) (fun _ => Inv v).
Proof.
  unfold filterResult. apply hoare_get_bind. intros this Hinv.
  destruct (HoverResult_filter result anchor (nextObjectId this)) as [filtered fresh].
  apply hoare_bind with (Q := fun _ => Inv v).
  - apply hoare_modify. intros c ->. exact Hinv.
  - intros _. apply hoare_ret. intros c Hc. exact Hc.
Qed.

Lemma isGettingCloser_ok v ext mouseEvent :
  hoare (Inv v) (isGettingCloser ext mouseEvent) (fun _ => Inv v).
Proof.
  unfold isGettingCloser. apply hoare_get_bind. intros this Hinv.
  destruct (hoverSticky (_editor this)); [|apply hoare_ret; keeps_inv].
  destruct mouseEvent as [e|]; [|apply hoare_ret; keeps_inv].
  unfold onWidget. apply hoare_get_bind. intros this' E. subst this'.
  destruct (ContentHoverWidget.isMouseGettingCloser _ _ _ _ _) as [b w].
  apply hoare_bind with (Q := fun _ => Inv v).
  - apply hoare_modify. intros c ->. exact Hinv.
  - intros _. apply hoare_ret. intros c Hc. exact Hc.
Qed.

Lemma hoare_seq {A B : Type} P Q (m : M A) (k : M B) R :
  hoare P m (fun _ => Q) -> hoare Q k R -> hoare P (bind m (fun _ => k)) R.
Proof.
  intros Hm Hk. apply hoare_bind with (Q := fun _ => Q); [exact Hm|].
  intros a. exact Hk.
Qed.

Lemma startShowingOrUpdateHover_ok v ext anchor mode source focus mouseEvent :
  hoare (Inv v)
    (_startShowingOrUpdateHover ext anchor mode source focus mouseEvent)
    (fun _ => Inv v).
Proof.
  unfold _startShowingOrUpdateHover. apply hoare_get_bind. intros this Hinv.
  apply hoare_pre with (P' := Inv v); [|intros c ->; exact Hinv].
  assert (Hstart : forall a insist,
    hoare (Inv v)
      (_startHoverOperationIfNecessary a mode source focus insist ;; ret true)
      (fun _ => Inv v)).
  { intros a insist. apply hoare_seq with (Q := Inv v).
    - apply startHoverOperationIfNecessary_ok.
    - apply hoare_ret. auto. }
  destruct (ContentHoverWidget.position (_widget this)) as [widgetPosition|];
    [destruct (_currentResult this) as [currentResult|]|].
  - apply hoare_bind with (Q := fun _ => Inv v);
      [apply isGettingCloser_ok|].
    intros [|].
    + destruct anchor as [a|].
      * apply Hstart.
      * apply hoare_seq with (Q := Inv v); apply hoare_ret; auto.
    + destruct anchor as [a|].
      * destruct (anchorEquals _ _); [apply hoare_ret; auto|].
        destruct (negb _).
        -- apply hoare_seq with (Q := Inv v); [apply setCurrentResult_ok | apply Hstart].
        -- apply hoare_bind with (Q := fun _ => Inv v);
             [apply filterResult_ok|].
           intros filtered.
           apply hoare_seq with (Q := Inv v); [apply setCurrentResult_ok | apply Hstart].
      * apply hoare_seq with (Q := Inv v); [apply setCurrentResult_ok | apply hoare_ret; auto].
  - destruct anchor as [a|]; [apply Hstart | apply hoare_ret; auto].
  - destruct anchor as [a|]; [apply Hstart | apply hoare_ret; auto].
Qed.

Lemma maybeShowAt_ok v ext mouseEvent :
  hoare (Inv v) (maybeShowAt ext mouseEvent) (fun _ => Inv v).
Proof.
  unfold maybeShowAt. apply hoare_get_bind. intros this Hinv.
  apply hoare_pre with (P' := Inv v); [|intros c ->; exact Hinv].
  destruct (Nat.eqb _ 0); apply startShowingOrUpdateHover_ok.
Qed.

Lemma startShowingAtRange_ok v ext range mode source focus :
  hoare (Inv v) (startShowingAtRange ext range mode source focus)
    (fun _ => Inv v).
Proof.
  unfold startShowingAtRange. apply hoare_seq with (Q := Inv v).
  - apply startShowingOrUpdateHover_ok.
  - apply hoare_ret. auto.
Qed.

Lemma hide_ok v : hoare (Inv v) hide (fun _ => Inv v).
Proof.
  unfold hide.
  apply hoare_seq with (Q := Inv v); [|apply hoare_seq with (Q := Inv v)].
  - apply hoare_modify. intros c Hc. exact Hc.
  - apply hoare_modify. intros c Hc. exact Hc.
  - apply setCurrentResult_ok.
Qed.

Lemma withResult_ok v hoverResult :
  hoare (Inv v) (_withResult hoverResult) (fun _ => Inv v).
Proof.
  unfold _withResult. apply hoare_get_bind. intros this Hinv.
  apply hoare_pre with (P' := Inv v); [|intros c ->; exact Hinv].
  repeat match goal with
    | |- hoare _ (if ?b then _ else _) _ => destruct b
    end;
    first [apply hoare_ret; auto | apply setCurrentResult_ok].
Qed.

Lemma onOperationResult_ok v result :
  hoare (Inv v) (onOperationResult result) (fun _ => Inv v).
Proof.
  unfold onOperationResult. apply hoare_get_bind. intros this Hinv.
  apply hoare_pre with (P' := Inv v); [|intros c ->; exact Hinv].
  destruct (ContentHoverComputer.anchor (_computer this)) as [anchor|];
    [|apply hoare_ret; auto].
  eapply hoare_bind; [apply newHoverResult_ok|].
  intros r. simpl.
  apply hoare_pre with (P' := Inv v); [apply withResult_ok | tauto].
Qed.

Lemma onTokenizationChange_ok v :
  hoare (Inv v) onTokenizationChange (fun _ => Inv v).
Proof.
  unfold onTokenizationChange. apply hoare_get_bind. intros this Hinv.
  apply hoare_pre with (P' := Inv v); [|intros c ->; exact Hinv].
  destruct (ContentHoverWidget.position (_widget this));
    [destruct (_currentResult this)|]; try (apply hoare_ret; auto).
  apply hoare_seq with (Q := Inv v); [|apply setCurrentResult_ok].
  apply hoare_modify. intros c Hc. exact Hc.
Qed.

Lemma step_ok v ext (e : Event) : hoare (Inv v) (step ext e) (fun _ => Inv v).
Proof.
  destruct e; simpl.
  - apply hoare_seq with (Q := Inv v); [apply maybeShowAt_ok | apply hoare_ret; auto].
  - apply startShowingAtRange_ok.
  - apply hide_ok.
  - apply hide_ok.
  - apply onOperationResult_ok.
  - apply onTokenizationChange_ok.
Qed.

Lemma run_ok v ext (events : list Event) :
  hoare (Inv v) (run ext events) (fun _ => Inv v).
Proof.
  induction events as [|e rest IH]; simpl.
  - apply hoare_ret. auto.
  - apply hoare_seq with (Q := Inv v); [apply step_ok | exact IH].
Qed.

(** ** Sorting and aggregation *)

Lemma sortInsert_perm {A : Type} (compare : A -> A -> Z) (x : A) (l : list A) :
  Permutation (sortInsert compare x l) (x :: l).
Proof.
  induction l as [|y l IH]; simpl.
  - apply Permutation_refl.
  - destruct (compare x y <=? 0).
    + apply Permutation_refl.
    + eapply perm_trans; [apply perm_skip; exact IH | apply perm_swap].
Qed.

Lemma arraySort_perm {A : Type} (compare : A -> A -> Z) (l : list A) :
  Permutation (arraySort compare l) l.
Proof.
  induction l as [|x l IH]; simpl.
  - apply perm_nil.
  - eapply perm_trans; [apply sortInsert_perm | apply perm_skip; exact IH].
Qed.

Section SortByKey.
Context {A : Type} (key : A -> Z).

Lemma sortInsert_sorted (x : A) (l : list A) :
  StronglySorted (fun a b => key a <= key b) l ->
  StronglySorted (fun a b => key a <= key b)
    (sortInsert (fun a b => key a - key b) x l).
Proof.
  induction 1 as [|y l Hs IH Hall]; simpl.
  - repeat constructor.
  - destruct (Z.leb_spec (key x - key y) 0) as [Hle|Hgt].
    + constructor; [constructor; assumption|].
      constructor; [lia|].
      eapply Forall_impl; [|exact Hall]. simpl. intros z Hz. lia.
    + constructor; [exact IH|].
      eapply Permutation_Forall.
      * apply Permutation_sym. apply sortInsert_perm.
      * constructor; [lia | exact Hall].
Qed.

Lemma arraySort_sorted (l : list A) :
  StronglySorted (fun a b => key a <= key b)
    (arraySort (fun a b => key a - key b) l).
Proof.
  induction l as [|x l IH]; simpl.
  - constructor.
  - apply sortInsert_sorted. exact IH.
Qed.
End SortByKey.

Lemma coalesce_app {A : Type} (l1 l2 : list (option A)) :
  coalesce (l1 ++ l2) = coalesce l1 ++ coalesce l2.
Proof.
  induction l1 as [|[x|] l1 IH]; simpl; [reflexivity | f_equal; exact IH | exact IH].
Qed.

Lemma fold_left_concat {A B : Type} (f : A -> list B) (l : list A)
    (acc : list B) :
  List.fold_left (fun result x => result ++ f x) l acc
  = acc ++ List.flat_map f l.
Proof.
  revert acc. induction l as [|x l IH]; intros acc; simpl.
  - symmetry. apply app_nil_r.
  - rewrite IH, app_assoc. reflexivity.
Qed.

(** What [computeSync] returns, for any computer. *)
Lemma computeSync_concat (k : ContentHoverComputer.t) :
  ContentHoverComputer.computeSync k =
  match hasModel (ContentHoverComputer.editor k), ContentHoverComputer.anchor k with
  | true, Some a =>
      coalesce
        (List.flat_map
           (fun p =>
              participantComputeSync p a
                (ContentHoverComputer._getLineDecorations
                   (ContentHoverComputer.editor k) a))
           (ContentHoverComputer.participants k))
  | _, _ => []
  end.
Proof.
  unfold ContentHoverComputer.computeSync.
  destruct (hasModel (ContentHoverComputer.editor k)); simpl; [|reflexivity].
  destruct (ContentHoverComputer.anchor k) as [a|]; [|reflexivity].
  rewrite fold_left_concat. reflexivity.
Qed.

(** Dropping the empty entries of a concatenation, or of each piece. *)
Lemma coalesce_flat_map {A B : Type} (f : A -> list (option B)) (l : list A) :
  coalesce (List.flat_map f l) = List.flat_map (fun x => coalesce (f x)) l.
Proof.
  induction l as [|x l IH]; simpl.
  - reflexivity.
  - rewrite coalesce_app, IH. reflexivity.
Qed.

Lemma static_new editor registry rect :
  static (ContentHoverController_new editor registry rect)
  = (editor,
     arraySort (fun p1 p2 => hoverOrdinal p1 - hoverOrdinal p2)
       (List.map (fun participant => participant editor) registry),
     editor,
     arraySort (fun p1 p2 => hoverOrdinal p1 - hoverOrdinal p2)
       (List.map (fun participant => participant editor) registry)).
Proof. reflexivity. Qed.

Lemma Inv_new editor registry rect :
  Inv (static (ContentHoverController_new editor registry rect))
    (ContentHoverController_new editor registry rect).
Proof. split; [reflexivity | exact I]. Qed.

(** C8.  Whatever has happened to a controller since its construction,
    its computer still holds the participants the constructor sorted by
    ordinal, and [computeSync] returns the concatenation, in that order,
    of what each participant computes for the current anchor and the
    decorations of its line, without the empty entries; it returns the
    empty list when the editor has no model or there is no anchor. *)
Theorem computeSync_in_ordinal_order :
  forall (ext : Externals) (editor : ICodeEditor)
         (registry : list (ICodeEditor -> IEditorHoverParticipant))
         (rect : Rect) (events : list Event),
  exists c,
    exec (run ext events) (ContentHoverController_new editor registry rect)
    = Some c
    /\ let k := _computer c in
       let ps := ContentHoverComputer.participants k in
       Permutation ps (List.map (fun participant => participant editor) registry)
       /\ StronglySorted byOrdinal ps
       /\ ContentHoverComputer.computeSync k =
          match hasModel (ContentHoverComputer.editor k),
                ContentHoverComputer.anchor k with
          | true, Some a =>
              coalesce
                (List.flat_map
                   (fun p =>
                      participantComputeSync p a
                        (ContentHoverComputer._getLineDecorations
                           (ContentHoverComputer.editor k) a))
                   ps)
          | _, _ => []
          end.
Proof.
  intros ext editor registry rect events.
  destruct (run_ok _ ext events _ (Inv_new editor registry rect))
    as ([] & c & Hrun & Hstatic & _).
  exists c. split; [unfold exec; rewrite Hrun; reflexivity|].
  rewrite static_new in Hstatic. unfold static in Hstatic.
  injection Hstatic as _ _ _ Hps.
  cbv zeta. rewrite Hps. repeat split.
  - apply arraySort_perm.
  - apply (arraySort_sorted hoverOrdinal).
  - rewrite computeSync_concat, Hps. reflexivity.
Qed.

(** The example of section 8: the registry lists [P2] (ordinal 1) before
    [P1] (ordinal 0); [computeSync] returns [P1]'s part, then [P2]'s. *)
Example computeSync_two_providers :
  option_map (fun c => List.map owner (ContentHoverComputer.computeSync (_computer c)))
    (exec (run Sample.ext [StartShowingAtRange (mkRange 4 3 4 3) Immediate Keyboard false])
       Sample.controller)
  = Some [1%nat; 2%nat].
Proof. reflexivity. Qed.

(** ** Results arriving *)

Lemma hoverIsVisible_inv (c : ContentHoverController) :
  hoverIsVisible c = true ->
  exists p r,
    ContentHoverWidget.position (_widget c) = Some p /\ _currentResult c = Some r.
Proof.
  unfold hoverIsVisible.
  destruct (ContentHoverWidget.position (_widget c)) as [p|];
    [destruct (_currentResult c) as [r|]|]; try discriminate.
  intros _. exists p, r. split; reflexivity.
Qed.

(** [_withResult] returns without a trace when the hover is visible with
    a complete result and the new one is incomplete. *)
Lemma withResult_incomplete (c : ContentHoverController) (r hr : HoverResult) :
  hoverIsVisible c = true -> _currentResult c = Some r ->
  resultIsComplete r = true -> resultIsComplete hr = false ->
  _withResult hr c = Some (tt, c).
Proof.
  intros Hvis Hcur Hcomplete Hpartial.
  destruct (hoverIsVisible_inv c Hvis) as (p & r' & Hpos & Hcur').
  unfold _withResult, bind, get. rewrite Hpos, Hcur, Hcomplete, Hpartial.
  reflexivity.
Qed.

(** C1.  When the overlay is visible and the current result is complete,
    an incomplete result changes nothing: [_withResult] leaves the whole
    controller as it was, and the result listener of the operation leaves
    the current result, the widget (hence what is displayed), the computer
    and the operation as they were. *)
Theorem incomplete_result_is_suppressed :
  forall (c : ContentHoverController) (r : HoverResult),
    hoverIsVisible c = true ->
    _currentResult c = Some r ->
    resultIsComplete r = true ->
    (forall hr, resultIsComplete hr = false -> _withResult hr c = Some (tt, c))
    /\ (forall result, operationIsComplete result = false ->
        exists c',
          onOperationResult result c = Some (tt, c')
          /\ _currentResult c' = Some r
          /\ _widget c' = _widget c
          /\ displayed c' = displayed c
          /\ _computer c' = _computer c
          /\ _hoverOperation c' = _hoverOperation c).
Proof.
  intros c r Hvis Hcur Hcomplete. split.
  - intros hr Hpartial. exact (withResult_incomplete c r hr Hvis Hcur Hcomplete Hpartial).
  - intros result Hpartial.
    unfold onOperationResult, bind, get.
    destruct (ContentHoverComputer.anchor (_computer c)) as [anchor|].
    + unfold newHoverResult, bind, get, modify, ret.
      rewrite (withResult_incomplete (withNextObjectId _ c) r);
        [| exact Hvis | exact Hcur | exact Hcomplete | exact Hpartial].
      eexists. split; [reflexivity|]. repeat split. exact Hcur.
    + exists c. unfold ret. repeat split; auto.
Qed.

Lemma incomplete_result_is_suppressed_witness :
  hoverIsVisible Sample.visibleComplete = true
  /\ _withResult (HoverResult_new 7 Sample.anchorFar [Sample.partWide] false)
       Sample.visibleComplete
     = Some (tt, Sample.visibleComplete).
Proof.
  assert (Hvis : hoverIsVisible Sample.visibleComplete = true) by reflexivity.
  split; [exact Hvis|].
  apply (incomplete_result_is_suppressed Sample.visibleComplete
           Sample.original Hvis eq_refl eq_refl).
  reflexivity.
Defined.

(** C5, as the code has it.  When the overlay is visible with a complete
    result, the computer insists on keeping the hover visible and the new
    result has no parts, [_withResult] changes nothing: the previous
    result stays current and stays displayed. *)
Theorem empty_result_is_suppressed_when_insisting :
  forall (c : ContentHoverController) (r hr : HoverResult),
    hoverIsVisible c = true ->
    _currentResult c = Some r ->
    resultIsComplete r = true ->
    ContentHoverComputer.insistOnKeepingHoverVisible (_computer c) = true ->
    resultMessages hr = [] ->
    _withResult hr c = Some (tt, c).
Proof.
  intros c r hr Hvis Hcur Hcomplete Hinsist Hempty.
  destruct (hoverIsVisible_inv c Hvis) as (p & r' & Hpos & _).
  unfold _withResult, bind, get.
  rewrite Hpos, Hcur, Hcomplete, Hinsist, Hempty.
  destruct (resultIsComplete hr); reflexivity.
Qed.

Lemma empty_result_is_suppressed_when_insisting_witness :
  hoverIsVisible Sample.insistingComplete = true
  /\ ContentHoverComputer.insistOnKeepingHoverVisible
       (_computer Sample.insistingComplete) = true
  /\ _withResult (HoverResult_new 7 Sample.anchorFar [] true)
       Sample.insistingComplete
     = Some (tt, Sample.insistingComplete).
Proof.
  assert (Hvis : hoverIsVisible Sample.insistingComplete = true) by reflexivity.
  assert (Hinsist : ContentHoverComputer.insistOnKeepingHoverVisible
                      (_computer Sample.insistingComplete) = true)
    by reflexivity.
  split; [exact Hvis|]. split; [exact Hinsist|].
  eapply (empty_result_is_suppressed_when_insisting Sample.insistingComplete).
  - exact Hvis.
  - reflexivity.
  - reflexivity.
  - exact Hinsist.
  - reflexivity.
Defined.

(** C5, as stated, fails when the visible result is incomplete.  The
    pointer goes onto columns 3-3 of line 4, a partial result with one part
    is shown, the pointer moves towards the hover onto columns 7-7 (the
    computer now insists on keeping the hover visible), and the operation
    reports a result with no parts: the current result is dropped and the
    widget is hidden. *)
Lemma empty_result_hides_partial_hover :
  exec (run Sample.ext (Sample.approach false)) Sample.controller
  = Some Sample.insisting
  /\ hoverIsVisible Sample.insisting = true
  /\ ContentHoverComputer.insistOnKeepingHoverVisible
       (_computer Sample.insisting) = true
  /\ option_map (fun r => List.length (resultMessages r))
       (_currentResult Sample.insisting) = Some 1%nat
  /\ resultMessages (HoverResult_new 1 Sample.anchorFar [] true) = []
  /\ (exists c',
        _withResult (HoverResult_new 1 Sample.anchorFar [] true)
          Sample.insisting = Some (tt, c')
        /\ _currentResult c' = None
        /\ isVisible c' = false)
  /\ (exists c',
        exec (step Sample.ext (OnResult (mkOperationResult [] true false)))
          Sample.insisting = Some c'
        /\ _currentResult c' = None
        /\ isVisible c' = false).
Proof.
  split; [reflexivity|].
  split; [reflexivity|]. split; [reflexivity|]. split; [reflexivity|].
  split; [reflexivity|]. split.
  - eexists. split; [vm_compute; reflexivity|]. split; reflexivity.
  - eexists. split; [vm_compute; reflexivity|]. split; reflexivity.
Qed.

(** ** Starting operations *)

Lemma equalsRange_refl (r : Range) : equalsRange r r = true.
Proof. unfold equalsRange. rewrite !Z.eqb_refl. reflexivity. Qed.

(** For all anchors [A], [A.equals(A)] is true. *)
Lemma anchorEquals_refl (a : HoverAnchor) : anchorEquals a a = true.
Proof.
  unfold anchorEquals. rewrite equalsRange_refl.
  destruct (anchorType a); reflexivity.
Qed.

(** C3.  When the computer's anchor equals the requested one, a request
    to start an operation changes nothing at all: no call reaches the
    operation (no cancel, no start), and the computer keeps its anchor,
    focus, source and insist flags. *)
Theorem same_anchor_starts_nothing :
  forall (c : ContentHoverController) (current anchor : HoverAnchor)
         (mode : HoverStartMode) (source : HoverStartSource)
         (focus insist : bool),
    ContentHoverComputer.anchor (_computer c) = Some current ->
    anchorEquals current anchor = true ->
    _startHoverOperationIfNecessary anchor mode source focus insist c
    = Some (tt, c).
Proof.
  intros c current anchor mode source focus insist Hanchor Hequal.
  unfold _startHoverOperationIfNecessary, bind, get.
  rewrite Hanchor, Hequal. reflexivity.
Qed.

Lemma same_anchor_starts_nothing_witness :
  anchorEquals Sample.anchorA Sample.anchorB = true
  /\ _startHoverOperationIfNecessary Sample.anchorB Immediate Mouse true true
       Sample.visibleComplete
     = Some (tt, Sample.visibleComplete).
Proof.
  split; [reflexivity|].
  apply (same_anchor_starts_nothing Sample.visibleComplete Sample.anchorA);
    reflexivity.
Defined.

(** ** Triggers *)

(** The proximity test returns, and touches nothing but the pointer
    bookkeeping of the visible data. *)
Lemma isGettingCloser_frame (ext : Externals)
    (mouseEvent : option IEditorMouseEvent) (c : ContentHoverController) :
  exists b c',
    isGettingCloser ext mouseEvent c = Some (b, c')
    /\ displayed c' = displayed c
    /\ ContentHoverWidget.position (_widget c')
       = ContentHoverWidget.position (_widget c)
    /\ _currentResult c' = _currentResult c
    /\ _computer c' = _computer c
    /\ _hoverOperation c' = _hoverOperation c
    /\ nextObjectId c' = nextObjectId c.
Proof.
  unfold isGettingCloser, bind, get.
  destruct (hoverSticky (_editor c));
    [|exists false, c; repeat split; reflexivity].
  destruct mouseEvent as [e|];
    [|exists false, c; repeat split; reflexivity].
  unfold onWidget, bind, get, modify, ret.
  unfold ContentHoverWidget.isMouseGettingCloser.
  destruct (ContentHoverWidget._visibleData (_widget c)) as [d|] eqn:Hd.
  - destruct (ContentHoverVisibleData.initialMousePosX d),
             (ContentHoverVisibleData.initialMousePosY d);
      try (destruct (Qltb _ _));
      eexists; eexists; (split; [reflexivity|]);
      unfold displayed, ContentHoverWidget.position; simpl; rewrite Hd;
      repeat split; reflexivity.
  - eexists; eexists; (split; [reflexivity|]).
    unfold displayed, ContentHoverWidget.position.
    repeat split; reflexivity.
Qed.

(** C9.  When the overlay is visible, the pointer is not judged to be
    getting closer under sticky mode, and the candidate anchor equals the
    anchor of the current result, the trigger returns [true] and does
    nothing: what is displayed, the current result, the computer and the
    operation (no cancel, no start) are as before. *)
Theorem same_anchor_trigger_is_noop :
  forall (ext : Externals) (c : ContentHoverController) (r : HoverResult)
         (anchor : HoverAnchor) (mode : HoverStartMode)
         (source : HoverStartSource) (focus : bool)
         (mouseEvent : option IEditorMouseEvent),
    hoverIsVisible c = true ->
    _currentResult c = Some r ->
    option_map fst (isGettingCloser ext mouseEvent c) = Some false ->
    anchorEquals (resultAnchor r) anchor = true ->
    exists c',
      _startShowingOrUpdateHover ext (Some anchor) mode source focus
        mouseEvent c = Some (true, c')
      /\ displayed c' = displayed c
      /\ _currentResult c' = _currentResult c
      /\ _computer c' = _computer c
      /\ _hoverOperation c' = _hoverOperation c.
Proof.
  intros ext c r anchor mode source focus mouseEvent Hvis Hcur Hfar Hequal.
  destruct (hoverIsVisible_inv c Hvis) as (p & r' & Hpos & _).
  destruct (isGettingCloser_frame ext mouseEvent c)
    as (b & c' & Hcloser & Hshown & _ & Hcur' & Hcomputer & Hop & _).
  rewrite Hcloser in Hfar. simpl in Hfar. injection Hfar as ->.
  exists c'. split; [|auto].
  unfold _startShowingOrUpdateHover, bind at 1, get.
  rewrite Hpos, Hcur. unfold bind at 1. rewrite Hcloser, Hequal.
  reflexivity.
Qed.

(** The example of section 8: anchor A (line 4, columns 3-3) is visible
    and the pointer produces candidate B (line 4, columns 3-3). *)
Lemma same_anchor_trigger_is_noop_witness :
  exists c',
    _startShowingOrUpdateHover Sample.ext (Some Sample.anchorB) Delayed Mouse
      false (Some (Sample.mouseOnText (mkRange 4 3 4 3) 90 90))
      Sample.visibleComplete = Some (true, c')
    /\ _hoverOperation c' = _hoverOperation Sample.visibleComplete.
Proof.
  destruct (same_anchor_trigger_is_noop Sample.ext Sample.visibleComplete
              Sample.original Sample.anchorB Delayed Mouse false
              (Some (Sample.mouseOnText (mkRange 4 3 4 3) 90 90)))
    as (c' & Hrun & _ & _ & _ & Hop); try reflexivity.
  exists c'. split; [exact Hrun | exact Hop].
Defined.

(** The same through [maybeShowAt]: it reports that the hover is still
    showing, and no call reaches the operation. *)
Example maybeShowAt_same_anchor :
  option_map (fun '(showing, c') => (showing, _hoverOperation c'))
    (maybeShowAt Sample.ext (Sample.mouseOnText (mkRange 4 3 4 3) 90 90)
       Sample.visibleComplete)
  = Some (true, _hoverOperation Sample.visibleComplete).
Proof. reflexivity. Qed.

(** ** The current result *)

(** Rendering an empty list of parts throws. *)
Lemma renderMessages_empty_throws (a : HoverAnchor) (c : ContentHoverController) :
  _renderMessages a [] c = None.
Proof. reflexivity. Qed.

(** A result without parts is stored as [null], and the widget hidden. *)
Lemma setCurrentResult_empty (r : HoverResult) (c : ContentHoverController) :
  resultMessages r = [] ->
  sameReference (_currentResult c) (Some r) = false ->
  _setCurrentResult (Some r) c
  = Some (tt, withWidget (ContentHoverWidget.hide (_widget c))
                (withCurrentResult None c)).
Proof.
  intros Hempty Hother. unfold _setCurrentResult, bind, get.
  rewrite Hother, Hempty. reflexivity.
Qed.

(** The invariant holds in every state a controller can reach. *)
Corollary reachable_current_result_non_empty :
  forall (ext : Externals) (editor : ICodeEditor)
         (registry : list (ICodeEditor -> IEditorHoverParticipant))
         (rect : Rect) (events : list Event),
  exists c,
    exec (run ext events) (ContentHoverController_new editor registry rect)
    = Some c
    /\ currentResultNonEmpty c.
Proof.
  intros ext editor registry rect events.
  destruct (run_ok _ ext events _ (Inv_new editor registry rect))
    as ([] & c & Hrun & _ & Hc).
  exists c. unfold exec. rewrite Hrun. split; [reflexivity | exact Hc].
Qed.

(* ================================================================== *)
(** * Further properties of the controller *)

(** ** What the methods do to the state, exactly *)

Lemma isVisible_hide (w : ContentHoverWidget.t) :
  ContentHoverWidget.isVisible (ContentHoverWidget.hide w) = false.
Proof.
  unfold ContentHoverWidget.hide, ContentHoverWidget.isVisible.
  destruct (ContentHoverWidget._visibleData w) eqn:E; simpl; [reflexivity|].
  rewrite E. reflexivity.
Qed.

Lemma contents_hide (w : ContentHoverWidget.t) :
  ContentHoverWidget.contentsDomNode (ContentHoverWidget.hide w)
  = ContentHoverWidget.contentsDomNode w.
Proof.
  unfold ContentHoverWidget.hide.
  destruct (ContentHoverWidget._visibleData w); reflexivity.
Qed.

(** [_renderMessages] on a non-empty list: the widget shows the fragment,
    unless the fragment is empty, in which case nothing changes. *)
Lemma renderMessages_spec (a : HoverAnchor) (ms : list IHoverPart)
    (c : ContentHoverController) :
  ms <> [] ->
  let fragment := renderFragment (renderParticipants (_participants c) ms) in
  exists c',
    _renderMessages a ms c = Some (tt, c')
    /\ ((fragment = [] /\ c' = c)
        \/ (fragment <> []
            /\ exists visibleData,
                 c' = withWidget
                        (ContentHoverWidget.showAt fragment visibleData (_widget c))
                        c)).
Proof.
  intros Hne fragment. destruct ms as [|m0 ms]; [congruence|].
  unfold _renderMessages, bind, get.
  destruct (computeHoverRanges_highlight (_editor c) (anchorRange a) m0 ms)
    as (ranges & -> & _).
  fold fragment. destruct fragment as [|n rest] eqn:E.
  - exists c. split; [reflexivity|]. left. split; reflexivity.
  - eexists. split; [reflexivity|]. right. split; [discriminate|].
    eexists. reflexivity.
Qed.

(** [_setCurrentResult]: nothing at all when handed the current result
    itself; otherwise the result is stored (as [null] when it has no
    messages) and the widget is hidden, shown anew, or left alone when
    there is nothing to render. *)
Lemma setCurrentResult_spec (hr : option HoverResult)
    (c : ContentHoverController) :
  exists c',
    _setCurrentResult hr c = Some (tt, c')
    /\ ((sameReference (_currentResult c) hr = true /\ c' = c)
        \/ (sameReference (_currentResult c) hr = false
            /\ ((storedResult hr = None
                 /\ c' = withWidget (ContentHoverWidget.hide (_widget c))
                           (withCurrentResult None c))
                \/ (exists r,
                      storedResult hr = Some r
                      /\ resultMessages r <> []
                      /\ (c' = withCurrentResult (Some r) c
                          \/ exists fragment visibleData,
                               fragment <> []
                               /\ c' = withWidget
                                         (ContentHoverWidget.showAt fragment
                                            visibleData (_widget c))
                                         (withCurrentResult (Some r) c)))))).
Proof.
  unfold _setCurrentResult, bind, get.
  destruct (sameReference (_currentResult c) hr) eqn:Hsame.
  { exists c. split; [reflexivity|]. left. split; reflexivity. }
  fold (storedResult hr).
  destruct (storedResult hr) as [r|] eqn:Hstored.
  - assert (Hne : resultMessages r <> []).
    { destruct hr as [r0|]; simpl in Hstored; [|discriminate].
      destruct (Nat.eqb_spec (List.length (resultMessages r0)) 0) as [E|E];
        [discriminate|].
      injection Hstored as <-. intros E'. rewrite E' in E. apply E. reflexivity. }
    unfold modify at 1.
    destruct (renderMessages_spec (resultAnchor r) (resultMessages r)
                (withCurrentResult (Some r) c) Hne)
      as (c' & Hrender & Hcases).
    exists c'. split; [exact Hrender|]. right. split; [reflexivity|].
    right. exists r. split; [reflexivity|]. split; [exact Hne|].
    destruct Hcases as [[_ ->] | [Hfrag [vd ->]]].
    + left. reflexivity.
    + right. eexists. exists vd. split; [exact Hfrag | reflexivity].
  - eexists. split; [reflexivity|]. right. split; [reflexivity|].
    left. split; reflexivity.
Qed.

Lemma startHoverOperationIfNecessary_spec (c : ContentHoverController)
    (a : HoverAnchor) (mode : HoverStartMode) (source : HoverStartSource)
    (focus insist : bool) :
  _startHoverOperationIfNecessary a mode source focus insist c
  = Some (tt, if computesFor c a then c
              else startedAt c a mode source focus insist).
Proof.
  unfold _startHoverOperationIfNecessary, bind, get, computesFor.
  destruct (match ContentHoverComputer.anchor (_computer c) with
            | Some current => anchorEquals current a
            | None => false
            end); reflexivity.
Qed.

(** ** Well-formed controllers *)

Lemma idsBelow_mono (r : HoverResult) (n m : nat) :
  idsBelow n r -> (n <= m)%nat -> idsBelow m r.
Proof.
  destruct r; simpl; intros H Hle; [lia|].
  destruct H as [H1 H2]. split; [lia | exact H2].
Qed.

(** Filtering hands out at most one identity, the next one, and what it
    returns is made of known objects. *)
Lemma HoverResult_filter_ids (r : HoverResult) (a : HoverAnchor) (n : nat) :
  idsBelow n r ->
  idsBelow (snd (HoverResult_filter r a n)) (fst (HoverResult_filter r a n))
  /\ (snd (HoverResult_filter r a n) = n
      \/ (snd (HoverResult_filter r a n) = S n
          /\ objectId (fst (HoverResult_filter r a n)) = n)).
Proof.
  induction r as [oid a0 ms c | oid original IH a0 ms c]; simpl; intros H.
  - destruct (Nat.eqb _ _); simpl.
    + split; [exact H | left; reflexivity].
    + split; [split; [lia | exact H] | right; split; reflexivity].
  - destruct H as [Hoid Horig]. apply IH.
    apply idsBelow_mono with (n := oid); [exact Horig | lia].
Qed.

Lemma objectId_unfiltered_le (r : HoverResult) (n : nat) :
  idsBelow n r -> (objectId (unfiltered r) <= objectId r)%nat
  /\ (objectId (unfiltered r) = objectId r -> unfiltered r = r).
Proof.
  revert n. induction r as [oid a0 ms c | oid original IH a0 ms c];
    simpl; intros n H.
  - split; [lia | reflexivity].
  - destruct H as [Hoid Horig].
    assert (Hlt : (objectId original < oid)%nat).
    { destruct original; simpl in Horig; simpl; lia. }
    destruct (IH _ Horig) as [Hle _]. split; [lia | lia].
Qed.

(** On known objects the identity test of [_setCurrentResult] tells a
    filter's result from the result that was filtered. *)
Lemma HoverResult_filter_same_object (r : HoverResult) (a : HoverAnchor)
    (n : nat) :
  idsBelow n r ->
  sameObject (fst (HoverResult_filter r a n)) r = true ->
  fst (HoverResult_filter r a n) = r.
Proof.
  intros Hids Hsame. unfold sameObject in Hsame. apply Nat.eqb_eq in Hsame.
  assert (Hn : (objectId r < n)%nat) by (destruct r; simpl in Hids; simpl; lia).
  destruct (objectId_unfiltered_le r n Hids) as [Hle Heq].
  rewrite HoverResult_filter_unfiltered in *.
  destruct (unfiltered r) as [oid a0 ms c | oid o a0 ms c] eqn:EU.
  - simpl in *. destruct (Nat.eqb _ _); simpl in *.
    + apply Heq. exact Hsame.
    + lia.
  - exfalso. clear -EU. induction r; simpl in EU; [discriminate | auto].
Qed.

Lemma storedResult_some (hr : option HoverResult) (r : HoverResult) :
  storedResult hr = Some r -> hr = Some r.
Proof.
  destruct hr as [r0|]; simpl; [|discriminate].
  destruct (Nat.eqb _ _); [discriminate|]. auto.
Qed.

Lemma wf_renderMessages (a : HoverAnchor) (ms : list IHoverPart) :
  ms <> [] ->
  hoare (fun c => wellFormed c /\ _currentResult c <> None)
    (_renderMessages a ms) (fun _ => wellFormed).
Proof.
  intros Hne c [[Hl Ha Hv Hi] Hcur].
  destruct (renderMessages_spec a ms c Hne) as (c' & E & Hcases).
  exists tt, c'. split; [exact E|].
  destruct Hcases as [[_ ->] | [_ [vd ->]]].
  - constructor; assumption.
  - constructor; simpl; auto.
Qed.

Lemma wf_setCurrentResult (hr : option HoverResult) :
  hoare (fun c => wellFormed c
                  /\ match hr with
                     | Some r => idsBelow (nextObjectId c) r
                     | None => True
                     end)
    (_setCurrentResult hr) (fun _ => wellFormed).
Proof.
  intros c [[Hl Ha Hv Hi] Hids].
  destruct (setCurrentResult_spec hr c) as (c' & E & Hcases).
  exists tt, c'. split; [exact E|].
  destruct Hcases as [[_ ->] | [_ [[_ ->] | (r & Hr & Hne & Hc')]]].
  - constructor; assumption.
  - constructor; simpl; auto.
    unfold isVisible. simpl. rewrite isVisible_hide. discriminate.
  - apply storedResult_some in Hr. subst hr.
    destruct Hc' as [-> | (fragment & vd & _ & ->)];
      constructor; simpl; auto; discriminate.
Qed.

Lemma wf_startHoverOperationIfNecessary a mode source focus insist :
  hoare wellFormed
    (_startHoverOperationIfNecessary a mode source focus insist)
    (fun _ => wellFormed).
Proof.
  intros c Hwf. rewrite startHoverOperationIfNecessary_spec.
  eexists. eexists. split; [reflexivity|].
  destruct (computesFor c a); [exact Hwf|].
  destruct Hwf as [Hl Ha Hv Hi]. constructor; simpl; auto.
Qed.

Lemma wf_newHoverResult a ms isComplete :
  hoare wellFormed (newHoverResult a ms isComplete)
    (fun r c => wellFormed c /\ idsBelow (nextObjectId c) r).
Proof.
  intros c [Hl Ha Hv Hi]. unfold newHoverResult, bind, get, modify, ret.
  eexists. eexists. split; [reflexivity|]. split.
  - constructor; simpl; auto.
    destruct (_currentResult c) as [r|]; [|exact I].
    apply idsBelow_mono with (n := nextObjectId c); [exact Hi | lia].
  - simpl. lia.
Qed.

Lemma wf_filterResult (r : HoverResult) (a : HoverAnchor) :
  hoare (fun c => wellFormed c /\ idsBelow (nextObjectId c) r)
    (filterResult r a)
    (fun f c => wellFormed c /\ idsBelow (nextObjectId c) f).
Proof.
  intros c [[Hl Ha Hv Hi] Hr]. unfold filterResult, bind, get, modify, ret.
  destruct (HoverResult_filter_ids r a (nextObjectId c) Hr) as [Hids Hnext].
  destruct (HoverResult_filter r a (nextObjectId c)) as [f n'] eqn:E.
  simpl in *.
  eexists. eexists. split; [reflexivity|]. split; [|exact Hids].
  constructor; simpl; auto.
  destruct (_currentResult c) as [r0|]; [|exact I].
  apply idsBelow_mono with (n := nextObjectId c); [exact Hi|].
  destruct Hnext as [-> | [-> _]]; lia.
Qed.

(** The proximity test keeps a controller well-formed and its current
    result and widget position in place. *)
Lemma wf_isGettingCloser (ext : Externals)
    (mouseEvent : option IEditorMouseEvent) (c : ContentHoverController) :
  wellFormed c ->
  exists b c',
    isGettingCloser ext mouseEvent c = Some (b, c')
    /\ wellFormed c'
    /\ displayed c' = displayed c
    /\ _currentResult c' = _currentResult c
    /\ _computer c' = _computer c
    /\ _hoverOperation c' = _hoverOperation c
    /\ nextObjectId c' = nextObjectId c.
Proof.
  intros [Hl Ha Hv Hi].
  destruct (isGettingCloser_frame ext mouseEvent c)
    as (b & c' & E & Hshown & _ & Hcur & Hcomp & Hop & Hnext).
  exists b, c'. split; [exact E|]. split; [|auto 10].
  constructor.
  - rewrite Hop. exact Hl.
  - rewrite Hop, Hcomp. exact Ha.
  - rewrite Hcur. intros Hvis. apply Hv.
    unfold displayed in Hshown. injection Hshown as Hdata _.
    unfold isVisible, ContentHoverWidget.isVisible in *.
    destruct (ContentHoverWidget._visibleData (_widget c'));
      destruct (ContentHoverWidget._visibleData (_widget c));
      try discriminate; auto.
  - rewrite Hcur, Hnext. exact Hi.
Qed.

Lemma wf_startShowingOrUpdateHover ext anchor mode source focus mouseEvent :
  hoare wellFormed
    (_startShowingOrUpdateHover ext anchor mode source focus mouseEvent)
    (fun _ => wellFormed).
Proof.
  assert (Hstart : forall a insist,
    hoare wellFormed
      (_startHoverOperationIfNecessary a mode source focus insist ;; ret true)
      (fun _ => wellFormed)).
  { intros a insist. apply hoare_seq with (Q := wellFormed).
    - apply wf_startHoverOperationIfNecessary.
    - apply hoare_ret. auto. }
  assert (Hhide : forall (k : M bool),
    hoare wellFormed k (fun _ => wellFormed) ->
    hoare wellFormed (_setCurrentResult None ;; k) (fun _ => wellFormed)).
  { intros k Hk. apply hoare_seq with (Q := wellFormed); [|exact Hk].
    apply hoare_pre with (P' := fun c => wellFormed c /\ True);
      [apply (wf_setCurrentResult None) | auto]. }
  intros c Hwf. unfold _startShowingOrUpdateHover, bind at 1, get.
  destruct (ContentHoverWidget.position (_widget c)) as [widgetPosition|];
    [destruct (_currentResult c) as [currentResult|] eqn:Hcur|].
  - destruct (wf_isGettingCloser ext mouseEvent c Hwf)
      as (b & c1 & E & Hwf1 & _ & Hcur1 & _ & _ & Hnext1).
    unfold bind at 1. rewrite E.
    assert (Hids : idsBelow (nextObjectId c1) currentResult).
    { rewrite Hnext1. pose proof (wf_ids c Hwf) as Hi.
      rewrite Hcur in Hi. exact Hi. }
    destruct b.
    + destruct anchor as [a|].
      * apply Hstart. exact Hwf1.
      * apply (hoare_seq wellFormed wellFormed); [| |exact Hwf1];
          apply hoare_ret; auto.
    + destruct anchor as [a|].
      * destruct (anchorEquals _ _); [apply hoare_ret with (P := wellFormed); auto|].
        destruct (negb _).
        -- apply Hhide; [apply Hstart | exact Hwf1].
        -- apply (hoare_bind
                    (fun c => wellFormed c /\ idsBelow (nextObjectId c) currentResult)
                    (fun f c => wellFormed c /\ idsBelow (nextObjectId c) f)
                    (fun _ => wellFormed));
             [apply wf_filterResult | | split; [exact Hwf1 | exact Hids]].
           intros filtered.
           apply hoare_seq with (Q := wellFormed);
             [apply (wf_setCurrentResult (Some filtered)) | apply Hstart].
      * apply Hhide; [apply hoare_ret; auto | exact Hwf1].
  - destruct anchor as [a|]; [apply Hstart; exact Hwf|].
    apply hoare_ret with (P := wellFormed); auto.
  - destruct anchor as [a|]; [apply Hstart; exact Hwf|].
    apply hoare_ret with (P := wellFormed); auto.
Qed.

Lemma wf_maybeShowAt ext mouseEvent :
  hoare wellFormed (maybeShowAt ext mouseEvent) (fun _ => wellFormed).
Proof.
  unfold maybeShowAt. apply hoare_get_bind. intros this Hwf.
  apply hoare_pre with (P' := wellFormed); [|intros c ->; exact Hwf].
  destruct (Nat.eqb _ 0); apply wf_startShowingOrUpdateHover.
Qed.

Lemma wf_startShowingAtRange ext range mode source focus :
  hoare wellFormed (startShowingAtRange ext range mode source focus)
    (fun _ => wellFormed).
Proof.
  unfold startShowingAtRange. apply hoare_seq with (Q := wellFormed).
  - apply wf_startShowingOrUpdateHover.
  - apply hoare_ret. auto.
Qed.

Lemma wf_hide : hoare wellFormed hide (fun _ => wellFormed).
Proof.
  intros c [Hl Ha Hv Hi]. unfold hide, bind at 1, modify at 1.
  unfold bind at 1, modify at 1.
  apply (wf_setCurrentResult None). split; [|exact I].
  constructor; simpl; auto.
Qed.

Lemma wf_withResult (hr : HoverResult) :
  hoare (fun c => wellFormed c /\ idsBelow (nextObjectId c) hr)
    (_withResult hr) (fun _ => wellFormed).
Proof.
  unfold _withResult. apply hoare_get_bind. intros this [Hwf Hids].
  apply hoare_pre
    with (P' := fun c => wellFormed c /\ idsBelow (nextObjectId c) hr);
    [|intros c ->; split; assumption].
  repeat match goal with
    | |- hoare _ (if ?b then _ else _) _ => destruct b
    end;
    first [apply hoare_ret; tauto | apply (wf_setCurrentResult (Some hr))].
Qed.

Lemma wf_onOperationResult result :
  hoare wellFormed (onOperationResult result) (fun _ => wellFormed).
Proof.
  unfold onOperationResult. apply hoare_get_bind. intros this Hwf.
  apply hoare_pre with (P' := wellFormed); [|intros c ->; exact Hwf].
  destruct (ContentHoverComputer.anchor (_computer this)) as [anchor|];
    [|apply hoare_ret; auto].
  eapply hoare_bind; [apply wf_newHoverResult|].
  intros r. apply wf_withResult.
Qed.

Lemma wf_onTokenizationChange :
  hoare wellFormed onTokenizationChange (fun _ => wellFormed).
Proof.
  intros c Hwf. unfold onTokenizationChange, bind at 1, get.
  destruct (ContentHoverWidget.position (_widget c));
    [destruct (_currentResult c) as [r|] eqn:Hcur|];
    try (apply hoare_ret with (P := wellFormed); auto).
  unfold bind at 1, modify at 1.
  apply (wf_setCurrentResult (Some r)).
  destruct Hwf as [Hl Ha Hv Hi]. rewrite Hcur in Hi.
  split; [|exact Hi].
  constructor; simpl; auto.
  rewrite Hcur. exact Hi.
Qed.

Lemma wf_step ext (e : Event) :
  hoare wellFormed (step ext e) (fun _ => wellFormed).
Proof.
  destruct e; simpl.
  - apply hoare_seq with (Q := wellFormed);
      [apply wf_maybeShowAt | apply hoare_ret; auto].
  - apply wf_startShowingAtRange.
  - apply wf_hide.
  - apply wf_hide.
  - apply wf_onOperationResult.
  - apply wf_onTokenizationChange.
Qed.

Lemma wf_run ext (events : list Event) :
  hoare wellFormed (run ext events) (fun _ => wellFormed).
Proof.
  induction events as [|e rest IH]; simpl.
  - apply hoare_ret. auto.
  - apply hoare_seq with (Q := wellFormed); [apply wf_step | exact IH].
Qed.

Lemma wf_new editor registry rect :
  wellFormed (ContentHoverController_new editor registry rect).
Proof. constructor; simpl; auto. discriminate. Qed.

(** Every controller a run of events leads to. *)
Lemma reachable_wellFormed ext editor registry rect (events : list Event) :
  exists c,
    exec (run ext events) (ContentHoverController_new editor registry rect)
    = Some c
    /\ wellFormed c.
Proof.
  destruct (wf_run ext events _ (wf_new editor registry rect))
    as ([] & c & Hrun & Hwf).
  exists c. unfold exec. rewrite Hrun. split; [reflexivity | exact Hwf].
Qed.

(** ** Invariants of every reachable controller *)

(** X1.  Whatever events a controller has gone through since its
    construction, its widget is never visible without a current result:
    when the widget shows, the controller holds the result it shows for. *)
Theorem visible_widget_has_current_result :
  forall (ext : Externals) (editor : ICodeEditor)
         (registry : list (ICodeEditor -> IEditorHoverParticipant))
         (rect : Rect) (events : list Event),
  exists c,
    exec (run ext events) (ContentHoverController_new editor registry rect)
    = Some c
    /\ (isVisible c = true -> exists r, _currentResult c = Some r)
    /\ hoverIsVisible c = isVisible c.
Proof.
  intros ext editor registry rect events.
  destruct (reachable_wellFormed ext editor registry rect events)
    as (c & Hrun & [_ _ Hv _]).
  exists c. split; [exact Hrun|].
  unfold hoverIsVisible, isVisible, ContentHoverWidget.isVisible,
    ContentHoverWidget.position in *.
  destruct (ContentHoverWidget._visibleData (_widget c)); simpl in *.
  - destruct (_currentResult c) as [r|].
    + split; [intros _; exists r; reflexivity | reflexivity].
    + exfalso. apply Hv; reflexivity.
  - split; [discriminate | reflexivity].
Qed.

(** X2.  In the calls a controller makes on its operation, every start
    comes right after a cancel: an operation is never started while an
    earlier one is still running. *)
Theorem every_start_follows_a_cancel :
  forall (ext : Externals) (editor : ICodeEditor)
         (registry : list (ICodeEditor -> IEditorHoverParticipant))
         (rect : Rect) (events : list Event),
  exists c,
    exec (run ext events) (ContentHoverController_new editor registry rect)
    = Some c
    /\ startsFollowCancels (_hoverOperation c).
Proof.
  intros ext editor registry rect events.
  destruct (reachable_wellFormed ext editor registry rect events)
    as (c & Hrun & [Hl _ _ _]).
  exists c. split; [exact Hrun | exact Hl].
Qed.

(** X3.  The computer has an anchor exactly when the last call on the
    operation was a start: once the operation is cancelled by [hide] the
    anchor is gone, so that a result arriving late finds no anchor. *)
Theorem anchor_iff_operation_started :
  forall (ext : Externals) (editor : ICodeEditor)
         (registry : list (ICodeEditor -> IEditorHoverParticipant))
         (rect : Rect) (events : list Event),
  exists c,
    exec (run ext events) (ContentHoverController_new editor registry rect)
    = Some c
    /\ ((exists a, ContentHoverComputer.anchor (_computer c) = Some a)
        <-> (exists mode rest,
               _hoverOperation c = OperationStart mode :: rest)).
Proof.
  intros ext editor registry rect events.
  destruct (reachable_wellFormed ext editor registry rect events)
    as (c & Hrun & [_ Ha _ _]).
  exists c. split; [exact Hrun|].
  unfold operationStarted, hasAnchor in Ha.
  destruct (ContentHoverComputer.anchor (_computer c)) as [a|];
    destruct (_hoverOperation c) as [|[|mode] rest]; try discriminate;
    split; intros H; try (destruct H as (? & ? & ?)); try (destruct H as (? & ?));
    try discriminate; eauto.
Qed.

(** ** The paths of a trigger *)

(** [_startShowingOrUpdateHover] when the hover is not visible. *)
Lemma trigger_when_hidden ext c anchor mode source focus mouseEvent :
  hoverIsVisible c = false ->
  _startShowingOrUpdateHover ext anchor mode source focus mouseEvent c
  = match anchor with
    | Some a =>
        Some (true, if computesFor c a then c
                    else startedAt c a mode source focus false)
    | None => Some (false, c)
    end.
Proof.
  intros Hvis. unfold _startShowingOrUpdateHover, bind at 1, get.
  unfold hoverIsVisible in Hvis.
  destruct (ContentHoverWidget.position (_widget c));
    [destruct (_currentResult c); [discriminate|]|];
    (destruct anchor as [a|]; [|reflexivity]);
    unfold bind; rewrite startHoverOperationIfNecessary_spec; reflexivity.
Qed.

(** [_startShowingOrUpdateHover] when the hover is visible, once the
    proximity test has run. *)
Lemma trigger_when_visible ext c p r anchor mode source focus mouseEvent b c1 :
  ContentHoverWidget.position (_widget c) = Some p ->
  _currentResult c = Some r ->
  isGettingCloser ext mouseEvent c = Some (b, c1) ->
  _startShowingOrUpdateHover ext anchor mode source focus mouseEvent c
  = (if b
     then
       match anchor with
       | Some a => _startHoverOperationIfNecessary a mode source focus true
       | None => ret tt
       end ;; ret true
     else
       match anchor with
       | None => _setCurrentResult None ;; ret false
       | Some a =>
           if anchorEquals (resultAnchor r) a then ret true
           else if negb (canAdoptVisibleHover ext a (resultAnchor r) p)
           then
             _setCurrentResult None ;;
             _startHoverOperationIfNecessary a mode source focus false ;;
             ret true
           else
             filtered <- filterResult r a ;;
             _setCurrentResult (Some filtered) ;;
             _startHoverOperationIfNecessary a mode source focus false ;;
             ret true
       end) c1.
Proof.
  intros Hpos Hcur Hcloser.
  unfold _startShowingOrUpdateHover, bind at 1, get.
  rewrite Hpos, Hcur. unfold bind at 1. rewrite Hcloser. reflexivity.
Qed.

Lemma isVisible_position (c : ContentHoverController) :
  isVisible c = match ContentHoverWidget.position (_widget c) with
                | Some _ => true
                | None => false
                end.
Proof.
  unfold isVisible, ContentHoverWidget.isVisible, ContentHoverWidget.position.
  destruct (ContentHoverWidget._visibleData (_widget c)); reflexivity.
Qed.

Lemma isVisible_displayed (c c' : ContentHoverController) :
  displayed c' = displayed c -> isVisible c' = isVisible c.
Proof.
  unfold displayed, isVisible, ContentHoverWidget.isVisible.
  intros H. injection H as Hdata _.
  destruct (ContentHoverWidget._visibleData (_widget c'));
    destruct (ContentHoverWidget._visibleData (_widget c));
    try discriminate; reflexivity.
Qed.

(** Hiding a hover that has a current result. *)
Lemma setCurrentResult_null (c : ContentHoverController) (r : HoverResult) :
  _currentResult c = Some r ->
  _setCurrentResult None c
  = Some (tt, withWidget (ContentHoverWidget.hide (_widget c))
                (withCurrentResult None c)).
Proof.
  intros Hcur. unfold _setCurrentResult, bind, get. rewrite Hcur. reflexivity.
Qed.

Lemma hidden_not_visible (c : ContentHoverController) :
  (isVisible c = true -> _currentResult c <> None) ->
  hoverIsVisible c = false -> isVisible c = false.
Proof.
  unfold hoverIsVisible. rewrite isVisible_position.
  destruct (ContentHoverWidget.position (_widget c)); [|reflexivity].
  destruct (_currentResult c); [discriminate|].
  intros Hv _. exfalso. apply Hv; reflexivity.
Qed.

(** X4.  The value a trigger returns.  With a candidate anchor it is
    [true]; without one it tells whether the hover is visible once the
    trigger is over (it then stayed visible under the sticky policy, or
    was hidden, or was not showing in the first place). *)
Theorem trigger_returns_whether_hover_shows :
  forall (ext : Externals) (c : ContentHoverController)
         (anchor : option HoverAnchor) (mode : HoverStartMode)
         (source : HoverStartSource) (focus : bool)
         (mouseEvent : option IEditorMouseEvent),
    (isVisible c = true -> _currentResult c <> None) ->
    exists b c',
      _startShowingOrUpdateHover ext anchor mode source focus mouseEvent c
      = Some (b, c')
      /\ b = match anchor with
             | Some _ => true
             | None => isVisible c'
             end.
Proof.
  intros ext c anchor mode source focus mouseEvent Hv.
  destruct (hoverIsVisible c) eqn:Hvis.
  - destruct (hoverIsVisible_inv c Hvis) as (p & r & Hpos & Hcur).
    destruct (isGettingCloser_frame ext mouseEvent c)
      as (b & c1 & Hcloser & Hshown & _ & Hcur1 & _).
    rewrite (trigger_when_visible ext c p r anchor mode source focus
               mouseEvent b c1 Hpos Hcur Hcloser).
    assert (Hvis1 : isVisible c1 = true).
    { rewrite (isVisible_displayed c c1 Hshown), isVisible_position, Hpos.
      reflexivity. }
    rewrite Hcur in Hcur1.
    destruct b, anchor as [a|]; unfold bind.
    + rewrite startHoverOperationIfNecessary_spec. unfold ret.
      eexists; eexists; split; reflexivity.
    + unfold ret. exists true, c1. split; [reflexivity | auto].
    + destruct (anchorEquals (resultAnchor r) a);
        [unfold ret; eexists; eexists; split; reflexivity|].
      destruct (negb _).
      * rewrite (setCurrentResult_null c1 r Hcur1).
        rewrite startHoverOperationIfNecessary_spec. unfold ret.
      eexists; eexists; split; reflexivity.
      * unfold filterResult, bind, get, modify, ret.
        destruct (HoverResult_filter r a (nextObjectId c1)) as [f n].
        destruct (setCurrentResult_spec (Some f) (withNextObjectId n c1))
          as (c2 & -> & _).
        rewrite startHoverOperationIfNecessary_spec. unfold ret.
      eexists; eexists; split; reflexivity.
    + rewrite (setCurrentResult_null c1 r Hcur1). unfold ret.
      eexists. eexists. split; [reflexivity|].
      unfold isVisible. simpl. rewrite isVisible_hide. reflexivity.
  - rewrite (trigger_when_hidden ext c anchor mode source focus mouseEvent Hvis).
    destruct anchor as [a|]; [eexists; eexists; split; reflexivity|].
    exists false, c. split; [reflexivity|].
    symmetry. apply hidden_not_visible; assumption.
Qed.

Lemma trigger_returns_whether_hover_shows_witness :
  exists c',
    _startShowingOrUpdateHover Sample.ext (Some Sample.anchorFar) Immediate
      Keyboard false None Sample.visibleComplete = Some (true, c').
Proof.
  destruct (trigger_returns_whether_hover_shows Sample.ext
              Sample.visibleComplete (Some Sample.anchorFar) Immediate
              Keyboard false None)
    as (b & c' & Hrun & Hb).
  - intros _. discriminate.
  - exists c'. rewrite Hrun, Hb. reflexivity.
Defined.

Lemma startsUnlessComputing_spec c0 c a mode source focus insist :
  _computer c = _computer c0 ->
  _hoverOperation c = _hoverOperation c0 ->
  startsUnlessComputing c0
    (if computesFor c a then c else startedAt c a mode source focus insist)
    a mode source focus insist.
Proof.
  intros Hk Hop. unfold startsUnlessComputing, computesFor.
  rewrite Hk.
  destruct (match ContentHoverComputer.anchor (_computer c0) with
            | Some current => anchorEquals current a
            | None => false
            end); simpl; rewrite ?Hk, ?Hop; split; reflexivity.
Qed.

(** X5.  The sticky path.  When the hover is visible and the pointer is
    judged to be getting closer to it, a trigger returns [true] and
    leaves what is displayed and the current result alone; with a
    candidate anchor it starts an operation that insists on keeping the
    hover visible, unless the computer already works on an equal anchor. *)
Theorem sticky_trigger_keeps_display :
  forall (ext : Externals) (c : ContentHoverController)
         (anchor : option HoverAnchor) (mode : HoverStartMode)
         (source : HoverStartSource) (focus : bool)
         (mouseEvent : option IEditorMouseEvent),
    hoverIsVisible c = true ->
    option_map fst (isGettingCloser ext mouseEvent c) = Some true ->
    exists c',
      _startShowingOrUpdateHover ext anchor mode source focus mouseEvent c
      = Some (true, c')
      /\ displayed c' = displayed c
      /\ _currentResult c' = _currentResult c
      /\ match anchor with
         | Some a => startsUnlessComputing c c' a mode source focus true
         | None =>
             _computer c' = _computer c
             /\ _hoverOperation c' = _hoverOperation c
         end.
Proof.
  intros ext c anchor mode source focus mouseEvent Hvis Hcloser.
  destruct (hoverIsVisible_inv c Hvis) as (p & r & Hpos & Hcur).
  destruct (isGettingCloser_frame ext mouseEvent c)
    as (b & c1 & E & Hshown & _ & Hcur1 & Hk & Hop & _).
  rewrite E in Hcloser. simpl in Hcloser. injection Hcloser as ->.
  rewrite (trigger_when_visible ext c p r anchor mode source focus
             mouseEvent true c1 Hpos Hcur E).
  destruct anchor as [a|]; unfold bind.
  - rewrite startHoverOperationIfNecessary_spec. unfold ret.
    eexists. split; [reflexivity|].
    pose proof (startsUnlessComputing_spec c c1 a mode source focus true Hk Hop)
      as Hstart.
    destruct (computesFor c1 a); simpl; auto.
  - unfold ret. exists c1. auto.
Qed.

Lemma sticky_trigger_keeps_display_witness :
  exists c',
    _startShowingOrUpdateHover Sample.ext (Some Sample.anchorFar) Delayed
      Mouse false (Some (Sample.mouseOnText (mkRange 4 7 4 7) 90 90))
      Trace.shownAtPointer = Some (true, c')
    /\ displayed c' = displayed Trace.shownAtPointer
    /\ ContentHoverComputer.insistOnKeepingHoverVisible (_computer c') = true.
Proof.
  destruct (sticky_trigger_keeps_display Sample.ext Trace.shownAtPointer
              (Some Sample.anchorFar) Delayed Mouse false
              (Some (Sample.mouseOnText (mkRange 4 7 4 7) 90 90)))
    as (c' & Hrun & Hshown & _ & Hstart); try reflexivity.
  exists c'. split; [exact Hrun|]. split; [exact Hshown|].
  unfold startsUnlessComputing in Hstart.
  change (computesFor Trace.shownAtPointer Sample.anchorFar) with false in Hstart.
  destruct Hstart as [_ ->]. reflexivity.
Defined.

(** X6.  When the hover is visible, the sticky path does not apply and
    there is no candidate anchor, the trigger hides the hover and returns
    [false]; it does not cancel the operation and leaves the computer its
    anchor. *)
Theorem trigger_without_anchor_hides :
  forall (ext : Externals) (c : ContentHoverController)
         (mode : HoverStartMode) (source : HoverStartSource) (focus : bool)
         (mouseEvent : option IEditorMouseEvent),
    hoverIsVisible c = true ->
    option_map fst (isGettingCloser ext mouseEvent c) = Some false ->
    exists c',
      _startShowingOrUpdateHover ext None mode source focus mouseEvent c
      = Some (false, c')
      /\ _currentResult c' = None
      /\ isVisible c' = false
      /\ _computer c' = _computer c
      /\ _hoverOperation c' = _hoverOperation c.
Proof.
  intros ext c mode source focus mouseEvent Hvis Hcloser.
  destruct (hoverIsVisible_inv c Hvis) as (p & r & Hpos & Hcur).
  destruct (isGettingCloser_frame ext mouseEvent c)
    as (b & c1 & E & Hshown & _ & Hcur1 & Hk & Hop & _).
  rewrite E in Hcloser. simpl in Hcloser. injection Hcloser as ->.
  rewrite (trigger_when_visible ext c p r None mode source focus
             mouseEvent false c1 Hpos Hcur E).
  rewrite Hcur in Hcur1. unfold bind.
  rewrite (setCurrentResult_null c1 r Hcur1). unfold ret.
  eexists. split; [reflexivity|]. simpl.
  unfold isVisible. simpl. rewrite isVisible_hide. auto.
Qed.

Lemma trigger_without_anchor_hides_witness :
  exists c',
    _startShowingOrUpdateHover Sample.ext None Delayed Mouse false None
      Sample.visibleComplete = Some (false, c')
    /\ isVisible c' = false
    /\ _hoverOperation c' = _hoverOperation Sample.visibleComplete.
Proof.
  destruct (trigger_without_anchor_hides Sample.ext Sample.visibleComplete
              Delayed Mouse false None)
    as (c' & Hrun & _ & Hhidden & _ & Hop); try reflexivity.
  exists c'. auto.
Defined.

(** X7.  When the hover is visible, the sticky path does not apply and
    the candidate anchor neither equals the anchor of the current result
    nor can adopt the visible hover, a delayed trigger (the mode of every
    pointer trigger) hides the hover, starts an operation for the
    candidate (unless the computer already works on an equal anchor) that
    does not insist on keeping the hover visible, and returns [true]. *)
Theorem incompatible_anchor_hides_and_starts :
  forall (ext : Externals) (c : ContentHoverController) (r : HoverResult)
         (p : Position) (a : HoverAnchor)
         (source : HoverStartSource) (focus : bool)
         (mouseEvent : option IEditorMouseEvent),
    ContentHoverWidget.position (_widget c) = Some p ->
    _currentResult c = Some r ->
    option_map fst (isGettingCloser ext mouseEvent c) = Some false ->
    anchorEquals (resultAnchor r) a = false ->
    canAdoptVisibleHover ext a (resultAnchor r) p = false ->
    exists c',
      _startShowingOrUpdateHover ext (Some a) Delayed source focus mouseEvent c
      = Some (true, c')
      /\ _currentResult c' = None
      /\ isVisible c' = false
      /\ startsUnlessComputing c c' a Delayed source focus false.
Proof.
  intros ext c r p a source focus mouseEvent Hpos Hcur Hcloser Hne Hadopt.
  destruct (isGettingCloser_frame ext mouseEvent c)
    as (b & c1 & E & Hshown & _ & Hcur1 & Hk & Hop & _).
  rewrite E in Hcloser. simpl in Hcloser. injection Hcloser as ->.
  rewrite (trigger_when_visible ext c p r (Some a) Delayed source focus
             mouseEvent false c1 Hpos Hcur E).
  rewrite Hne, Hadopt. cbn [negb].
  rewrite Hcur in Hcur1. unfold bind.
  rewrite (setCurrentResult_null c1 r Hcur1).
  rewrite startHoverOperationIfNecessary_spec. unfold ret.
  eexists. split; [reflexivity|].
  set (c2 := withWidget (ContentHoverWidget.hide (_widget c1))
               (withCurrentResult None c1)).
  pose proof (startsUnlessComputing_spec c c2 a Delayed source focus false Hk Hop)
    as Hstart.
  destruct (computesFor c2 a); simpl; repeat split; auto;
    unfold isVisible; simpl; apply isVisible_hide.
Qed.

Lemma incompatible_anchor_hides_and_starts_witness :
  exists c',
    _startShowingOrUpdateHover Sample.ext (Some Trace.anchorBelow) Delayed
      Mouse false None Sample.visibleComplete = Some (true, c')
    /\ isVisible c' = false
    /\ ContentHoverComputer.anchor (_computer c') = Some Trace.anchorBelow.
Proof.
  destruct (incompatible_anchor_hides_and_starts Sample.ext
              Sample.visibleComplete Sample.original (mkPosition 4 3)
              Trace.anchorBelow Mouse false None)
    as (c' & Hrun & _ & Hhidden & Hstart); try reflexivity.
  exists c'. split; [exact Hrun|]. split; [exact Hhidden|].
  unfold startsUnlessComputing in Hstart.
  change (computesFor Sample.visibleComplete Trace.anchorBelow) with false
    in Hstart.
  destruct Hstart as [_ ->]. reflexivity.
Defined.

Lemma sameObject_sym (a b : HoverResult) : sameObject a b = sameObject b a.
Proof. unfold sameObject. apply Nat.eqb_sym. Qed.

(** X8.  When the hover is visible, the sticky path does not apply and
    the candidate anchor differs from the anchor of the current result
    but can adopt the visible hover, a delayed trigger (the mode of every
    pointer trigger) leaves the current result narrowed to
    the parts of its unfiltered original that are valid for the
    candidate, under the anchor it had; when no part is valid the hover
    is hidden.  An operation is started for the candidate unless the
    computer already works on an equal anchor, and the trigger returns
    [true]. *)
Theorem compatible_anchor_filters_current_result :
  forall (ext : Externals) (c : ContentHoverController) (r : HoverResult)
         (p : Position) (a : HoverAnchor)
         (source : HoverStartSource) (focus : bool)
         (mouseEvent : option IEditorMouseEvent),
    ContentHoverWidget.position (_widget c) = Some p ->
    _currentResult c = Some r ->
    resultMessages r <> [] ->
    idsBelow (nextObjectId c) r ->
    option_map fst (isGettingCloser ext mouseEvent c) = Some false ->
    anchorEquals (resultAnchor r) a = false ->
    canAdoptVisibleHover ext a (resultAnchor r) p = true ->
    exists c',
      _startShowingOrUpdateHover ext (Some a) Delayed source focus mouseEvent c
      = Some (true, c')
      /\ match keptParts r a with
         | [] => _currentResult c' = None /\ isVisible c' = false
         | _ :: _ =>
             exists r',
               _currentResult c' = Some r'
               /\ resultMessages r' = keptParts r a
               /\ resultAnchor r' = resultAnchor (unfiltered r)
               /\ resultIsComplete r' = resultIsComplete (unfiltered r)
         end
      /\ startsUnlessComputing c c' a Delayed source focus false.
Proof.
  intros ext c r p a source focus mouseEvent Hpos Hcur Hne Hids Hcloser
    Hdiff Hadopt.
  destruct (isGettingCloser_frame ext mouseEvent c)
    as (b & c1 & E & Hshown & _ & Hcur1 & Hk & Hop & Hnext).
  rewrite E in Hcloser. simpl in Hcloser. injection Hcloser as ->.
  rewrite (trigger_when_visible ext c p r (Some a) Delayed source focus
             mouseEvent false c1 Hpos Hcur E).
  rewrite Hdiff, Hadopt. cbn [negb].
  rewrite Hcur in Hcur1. rewrite <- Hnext in Hids.
  unfold filterResult, bind at 1, bind at 1, get, bind at 1, modify, ret.
  pose proof (HoverResult_filter_messages r a (nextObjectId c1)) as Hmsgs.
  pose proof (HoverResult_filter_anchor r a (nextObjectId c1)) as [Hanchor Hcomplete].
  pose proof (HoverResult_filter_same_object r a (nextObjectId c1) Hids) as Hsame.
  destruct (HoverResult_filter r a (nextObjectId c1)) as [f n].
  simpl in Hmsgs, Hanchor, Hcomplete, Hsame. fold (keptParts r a) in Hmsgs.
  destruct (setCurrentResult_spec (Some f) (withNextObjectId n c1))
    as (c2 & Eset & Hcases).
  unfold bind at 1. rewrite Eset.
  unfold bind. rewrite startHoverOperationIfNecessary_spec.
  eexists. split; [reflexivity|].
  assert (Hk2 : _computer c2 = _computer c
                /\ _hoverOperation c2 = _hoverOperation c).
  { destruct Hcases
      as [[_ ->] | [_ [[_ ->] | (r' & _ & _ & [-> | (fr & vd & _ & ->)])]]];
      simpl; auto. }
  destruct Hk2 as [Hk2 Hop2].
  pose proof (startsUnlessComputing_spec c c2 a Delayed source focus false Hk2 Hop2)
    as Hstart.
  assert (Hresult :
    match keptParts r a with
    | [] => _currentResult c2 = None /\ isVisible c2 = false
    | _ :: _ =>
        exists r',
          _currentResult c2 = Some r'
          /\ resultMessages r' = keptParts r a
          /\ resultAnchor r' = resultAnchor (unfiltered r)
          /\ resultIsComplete r' = resultIsComplete (unfiltered r)
    end).
  { destruct Hcases as [[Hsame' ->] | [_ [[Hstored ->] | (r' & Hstored & Hne' & Hc2)]]].
    - simpl in Hsame'. rewrite Hcur1 in Hsame'. simpl in Hsame'.
      rewrite sameObject_sym in Hsame'. specialize (Hsame Hsame'). subst f.
      rewrite <- Hmsgs. destruct (resultMessages r) eqn:Em; [congruence|].
      exists r. simpl. rewrite Hcur1. rewrite Em. auto.
    - simpl in Hstored.
      destruct (Nat.eqb_spec (List.length (resultMessages f)) 0) as [E0|E0];
        [|discriminate].
      rewrite <- Hmsgs. destruct (resultMessages f); [|discriminate].
      split; [reflexivity|]. unfold isVisible. simpl. apply isVisible_hide.
    - apply storedResult_some in Hstored. injection Hstored as <-.
      rewrite <- Hmsgs. destruct (resultMessages f) eqn:Em; [congruence|].
      exists f. rewrite Em.
      destruct Hc2 as [-> | (fr & vd & _ & ->)]; simpl; auto. }
  destruct (computesFor c2 a); simpl; split; auto.
Qed.

Lemma compatible_anchor_filters_current_result_witness :
  exists c',
    _startShowingOrUpdateHover Sample.ext (Some Sample.anchorFar) Delayed
      Mouse false None Sample.visibleComplete = Some (true, c')
    /\ option_map (fun r' => List.map owner (resultMessages r'))
         (_currentResult c') = Some [1%nat].
Proof.
  destruct (compatible_anchor_filters_current_result Sample.ext
              Sample.visibleComplete Sample.original (mkPosition 4 3)
              Sample.anchorFar Mouse false None)
    as (c' & Hrun & Hparts & _); try reflexivity.
  - discriminate.
  - simpl. lia.
  - exists c'. split; [exact Hrun|].
    change (keptParts Sample.original Sample.anchorFar)
      with [Sample.partWide] in Hparts.
    destruct Hparts as (r' & Hc' & Hm' & _).
    rewrite Hc'. simpl. rewrite Hm'. reflexivity.
Defined.

(** [_setCurrentResult] leaves the computer, the operation and the
    allocation counter alone. *)
Lemma setCurrentResult_frame (hr : option HoverResult)
    (c : ContentHoverController) :
  exists c',
    _setCurrentResult hr c = Some (tt, c')
    /\ _computer c' = _computer c
    /\ _hoverOperation c' = _hoverOperation c
    /\ nextObjectId c' = nextObjectId c.
Proof.
  destruct (setCurrentResult_spec hr c) as (c' & E & Hcases).
  exists c'. split; [exact E|].
  destruct Hcases
    as [[_ ->] | [_ [[_ ->] | (r' & _ & _ & [-> | (fr & vd & _ & ->)])]]];
    simpl; auto.
Qed.

(** X9.  A trigger either leaves the computer and the operation exactly
    as they were, or cancels the operation and starts it anew, in the
    requested mode, for a candidate anchor that is not equal to the one
    the computer had; it never cancels without starting, and it insists
    on keeping the hover visible only if the hover was visible. *)
Theorem trigger_restarts_or_leaves_operation :
  forall (ext : Externals) (c : ContentHoverController)
         (anchor : option HoverAnchor) (mode : HoverStartMode)
         (source : HoverStartSource) (focus : bool)
         (mouseEvent : option IEditorMouseEvent),
  exists b c',
    _startShowingOrUpdateHover ext anchor mode source focus mouseEvent c
    = Some (b, c')
    /\ ((_computer c' = _computer c
         /\ _hoverOperation c' = _hoverOperation c)
        \/ (exists a insist,
              anchor = Some a
              /\ computesFor c a = false
              /\ (insist = true -> hoverIsVisible c = true)
              /\ _hoverOperation c'
                 = OperationStart mode :: OperationCancel :: _hoverOperation c
              /\ _computer c'
                 = ContentHoverComputer.mk
                     (ContentHoverComputer.editor (_computer c))
                     (ContentHoverComputer.participants (_computer c))
                     (Some a) focus source insist)).
Proof.
  intros ext c anchor mode source focus mouseEvent.
  assert (Hstart : forall c0 a insist,
    _computer c0 = _computer c -> _hoverOperation c0 = _hoverOperation c ->
    (insist = true -> hoverIsVisible c = true) ->
    exists b c',
      (_startHoverOperationIfNecessary a mode source focus insist ;; ret true) c0
      = Some (b, c')
      /\ ((_computer c' = _computer c
           /\ _hoverOperation c' = _hoverOperation c)
          \/ (exists a' insist',
                Some a = Some a'
                /\ computesFor c a' = false
                /\ (insist' = true -> hoverIsVisible c = true)
                /\ _hoverOperation c'
                   = OperationStart mode :: OperationCancel :: _hoverOperation c
                /\ _computer c'
                   = ContentHoverComputer.mk
                       (ContentHoverComputer.editor (_computer c))
                       (ContentHoverComputer.participants (_computer c))
                       (Some a') focus source insist'))).
  { intros c0 a insist Hk Hop Hinsist. unfold bind.
    rewrite startHoverOperationIfNecessary_spec. unfold ret.
    eexists. eexists. split; [reflexivity|].
    pose proof (startsUnlessComputing_spec c c0 a mode source focus insist Hk Hop)
      as Hs.
    unfold startsUnlessComputing in Hs.
    assert (Hsame : computesFor c0 a = computesFor c a).
    { unfold computesFor. rewrite Hk. reflexivity. }
    rewrite Hsame in *.
    destruct (computesFor c a) eqn:Hcomp.
    - left. exact Hs.
    - right. exists a, insist. destruct Hs as [Hs1 Hs2]. auto. }
  destruct (hoverIsVisible c) eqn:Hvis.
  - destruct (hoverIsVisible_inv c Hvis) as (p & r & Hpos & Hcur).
    destruct (isGettingCloser_frame ext mouseEvent c)
      as (b & c1 & E & _ & _ & Hcur1 & Hk & Hop & _).
    rewrite (trigger_when_visible ext c p r anchor mode source focus
               mouseEvent b c1 Hpos Hcur E).
    rewrite Hcur in Hcur1.
    destruct b, anchor as [a|].
    + apply Hstart; auto.
    + unfold bind, ret. eexists. eexists. split; [reflexivity|]. auto.
    + destruct (anchorEquals (resultAnchor r) a).
      { unfold ret. eexists. eexists. split; [reflexivity|]. auto. }
      destruct (negb _).
      * unfold bind at 1. rewrite (setCurrentResult_null c1 r Hcur1).
        apply Hstart; simpl; auto; try discriminate.
      * unfold filterResult, bind at 1, bind at 1, get, bind at 1, modify, ret.
        destruct (HoverResult_filter r a (nextObjectId c1)) as [f n].
        destruct (setCurrentResult_frame (Some f) (withNextObjectId n c1))
          as (c2 & Eset & Hk2 & Hop2 & _).
        unfold bind at 1. rewrite Eset.
        apply Hstart; simpl in *; try congruence; try discriminate.
    + unfold bind. rewrite (setCurrentResult_null c1 r Hcur1). unfold ret.
      eexists. eexists. split; [reflexivity|]. simpl. auto.
  - rewrite (trigger_when_hidden ext c anchor mode source focus mouseEvent Hvis).
    destruct anchor as [a|].
    + destruct (Hstart c a false eq_refl eq_refl) as (b & c' & Erun & Hres);
        [discriminate|].
      unfold bind in Erun. rewrite startHoverOperationIfNecessary_spec in Erun.
      unfold ret in Erun. injection Erun as <- <-.
      eexists. eexists. split; [reflexivity | exact Hres].
    + eexists. eexists. split; [reflexivity|]. auto.
Qed.

(** ** Hiding, late results and results that are adopted *)

(** What [hide] leaves behind. *)
Lemma hide_spec (c : ContentHoverController) :
  (isVisible c = true -> _currentResult c <> None) ->
  exists c',
    hide c = Some (tt, c')
    /\ _currentResult c' = None
    /\ isVisible c' = false
    /\ ContentHoverComputer.anchor (_computer c') = None
    /\ _hoverOperation c' = OperationCancel :: _hoverOperation c.
Proof.
  intros Hv. unfold hide, bind at 1, modify at 1.
  unfold bind at 1, modify at 1.
  match goal with
  | |- exists c', _setCurrentResult None ?s = _ /\ _ => set (c1 := s)
  end.
  destruct (setCurrentResult_spec None c1) as (c' & E & Hcases).
  exists c'. split; [exact E|].
  destruct Hcases as [[Hsame ->] | [_ [[_ ->] | (r & Hr & _)]]].
  - assert (Hcur : _currentResult c = None).
    { simpl in Hsame. destruct (_currentResult c); [discriminate | reflexivity]. }
    repeat split; auto.
    destruct (isVisible c) eqn:Hshow; [|exact Hshow].
    exfalso. apply Hv; auto.
  - repeat split; auto.
    unfold isVisible. simpl. apply isVisible_hide.
  - discriminate Hr.
Qed.

(** X10.  [hide] returns with the hover hidden: no current result, the
    widget not visible, the computer without anchor and the operation
    cancelled; and a result that the operation still reports afterwards
    is ignored. *)
Theorem hide_discards_late_results :
  forall (c : ContentHoverController) (result : OperationResult),
    (isVisible c = true -> _currentResult c <> None) ->
    exists c',
      hide c = Some (tt, c')
      /\ _currentResult c' = None
      /\ isVisible c' = false
      /\ ContentHoverComputer.anchor (_computer c') = None
      /\ _hoverOperation c' = OperationCancel :: _hoverOperation c
      /\ onOperationResult result c' = Some (tt, c').
Proof.
  intros c result Hv.
  destruct (hide_spec c Hv) as (c' & E & Hcur & Hhidden & Hanchor & Hop).
  exists c'. repeat split; auto.
  unfold onOperationResult, bind, get. rewrite Hanchor. reflexivity.
Qed.

Lemma hide_discards_late_results_witness :
  exists c',
    hide Sample.visibleComplete = Some (tt, c')
    /\ isVisible c' = false
    /\ onOperationResult (mkOperationResult [Sample.partWide] true false) c'
       = Some (tt, c').
Proof.
  destruct (hide_discards_late_results Sample.visibleComplete
              (mkOperationResult [Sample.partWide] true false))
    as (c' & Hrun & _ & Hhidden & _ & _ & Hlate).
  - discriminate.
  - exists c'. auto.
Defined.

(** X11.  A result that [_withResult] does not hold back is adopted: the
    listener makes a new result for the computer's anchor out of the
    reported parts (and the loading message, if asked for) and the
    reported completeness, and it becomes the current result; when it has
    no parts the hover is hidden instead.  The computer and the operation
    are not touched. *)
Theorem operation_result_is_adopted :
  forall (c : ContentHoverController) (a : HoverAnchor)
         (result : OperationResult),
    ContentHoverComputer.anchor (_computer c) = Some a ->
    match _currentResult c with
    | Some r => idsBelow (nextObjectId c) r
    | None => True
    end ->
    holdsBack c (operationIsComplete result) (reportedMessages c result)
    = false ->
    exists c',
      onOperationResult result c = Some (tt, c')
      /\ match reportedMessages c result with
         | [] => _currentResult c' = None /\ isVisible c' = false
         | _ :: _ =>
             _currentResult c'
             = Some (HoverResult_new (nextObjectId c) a
                       (reportedMessages c result)
                       (operationIsComplete result))
         end
      /\ _computer c' = _computer c
      /\ _hoverOperation c' = _hoverOperation c.
Proof.
  intros c a result Hanchor Hids Hback.
  unfold onOperationResult, bind at 1, get. rewrite Hanchor.
  fold (reportedMessages c result).
  unfold newHoverResult, bind at 1, bind at 1, get, bind at 1, modify, ret.
  set (hr := HoverResult_new (nextObjectId c) a (reportedMessages c result)
               (operationIsComplete result)).
  set (c1 := withNextObjectId (S (nextObjectId c)) c).
  assert (Hwith : _withResult hr c1 = _setCurrentResult (Some hr) c1).
  { unfold _withResult, bind at 1, get. unfold holdsBack in Hback.
    simpl. destruct (ContentHoverWidget.position (_widget c)); [|reflexivity].
    destruct (_currentResult c) as [r|]; [|reflexivity].
    destruct (resultIsComplete r); [|reflexivity].
    simpl in Hback. apply orb_false_iff in Hback. destruct Hback as [H1 H2].
    rewrite H1, H2. reflexivity. }
  rewrite Hwith.
  assert (Hother : sameReference (_currentResult c1) (Some hr) = false).
  { simpl. destruct (_currentResult c) as [r|]; [|reflexivity].
    simpl. unfold sameObject. simpl. apply Nat.eqb_neq.
    destruct r; simpl in Hids; simpl; lia. }
  destruct (setCurrentResult_spec (Some hr) c1) as (c' & E & Hcases).
  exists c'. split; [exact E|].
  destruct Hcases as [[Hsame _] | [_ [[Hstored ->] | (r' & Hstored & Hne & Hc')]]].
  - congruence.
  - simpl in Hstored.
    destruct (reportedMessages c result) eqn:Em; [|discriminate].
    simpl. repeat split; auto. unfold isVisible. simpl. apply isVisible_hide.
  - apply storedResult_some in Hstored. injection Hstored as <-.
    simpl in Hne. destruct (reportedMessages c result) eqn:Em; [congruence|].
    destruct Hc' as [-> | (fr & vd & _ & ->)]; simpl; auto.
Qed.

Lemma operation_result_is_adopted_witness :
  exists c',
    onOperationResult (mkOperationResult [Sample.partWide] true false)
      Sample.visibleComplete = Some (tt, c')
    /\ _currentResult c'
       = Some (HoverResult_new 1 Sample.anchorA [Sample.partWide] true).
Proof.
  destruct (operation_result_is_adopted Sample.visibleComplete Sample.anchorA
              (mkOperationResult [Sample.partWide] true false))
    as (c' & Hrun & Hcur & _); try reflexivity.
  - simpl. lia.
  - exists c'. split; [exact Hrun | exact Hcur].
Defined.

(** What the tokenization listener does. *)
Lemma onTokenizationChange_spec (c : ContentHoverController) :
  onTokenizationChange c
  = Some (tt, if hoverIsVisible c
              then withWidget (ContentHoverWidget.clear (_widget c)) c
              else c).
Proof.
  unfold onTokenizationChange, bind at 1, get, hoverIsVisible.
  destruct (ContentHoverWidget.position (_widget c));
    [destruct (_currentResult c) as [r|] eqn:Hcur|]; try reflexivity.
  unfold bind, modify, _setCurrentResult, bind, get. simpl.
  rewrite Hcur. simpl. unfold sameObject. rewrite Nat.eqb_refl. reflexivity.
Qed.

(** X12.  A change of the tokenization registry while the hover is
    visible empties the content of the widget and renders nothing in its
    place: [_setCurrentResult] is handed the current result itself and
    returns at its identity test.  The current result, the visible data,
    the computer and the operation stay as they were; when the hover is
    not visible nothing changes at all. *)
Theorem tokenization_change_empties_content :
  forall c : ContentHoverController,
  exists c',
    onTokenizationChange c = Some (tt, c')
    /\ ContentHoverWidget.contentsDomNode (_widget c')
       = (if hoverIsVisible c then []
          else ContentHoverWidget.contentsDomNode (_widget c))
    /\ ContentHoverWidget._visibleData (_widget c')
       = ContentHoverWidget._visibleData (_widget c)
    /\ _currentResult c' = _currentResult c
    /\ _computer c' = _computer c
    /\ _hoverOperation c' = _hoverOperation c.
Proof.
  intros c. rewrite onTokenizationChange_spec.
  eexists. split; [reflexivity|].
  destruct (hoverIsVisible c); repeat split; reflexivity.
Qed.

(** X13.  Only a result of the operation makes the hover appear: a
    pointer trigger, a delayed request to show at a range, [hide], the
    Escape key or a tokenization change never turn a widget that is not
    visible into a visible one.  (An immediate request is left out: its
    operation may report a result before the request returns.) *)
Theorem only_results_show_the_hover :
  forall (ext : Externals) (e : Event) (c : ContentHoverController),
    isVisible c = false ->
    (forall result, e <> OnResult result) ->
    (forall range source focus,
       e <> StartShowingAtRange range Immediate source focus) ->
    exists c',
      exec (step ext e) c = Some c' /\ isVisible c' = false.
Proof.
  intros ext e c Hhidden Hevent _.
  assert (Hvis : hoverIsVisible c = false).
  { unfold hoverIsVisible. rewrite isVisible_position in Hhidden.
    destruct (ContentHoverWidget.position (_widget c));
      [discriminate | reflexivity]. }
  assert (Htrigger : forall anchor mode source focus mouseEvent,
    exists b c',
      _startShowingOrUpdateHover ext anchor mode source focus mouseEvent c
      = Some (b, c') /\ isVisible c' = false).
  { intros anchor mode source focus mouseEvent.
    rewrite (trigger_when_hidden ext c anchor mode source focus mouseEvent Hvis).
    destruct anchor as [a|]; eexists; eexists; (split; [reflexivity|]);
      [destruct (computesFor c a)|]; exact Hhidden. }
  assert (Hhide : exists c', hide c = Some (tt, c') /\ isVisible c' = false).
  { destruct (hide_spec c) as (c' & E & _ & Hh & _);
      [rewrite Hhidden; discriminate|].
    exists c'. auto. }
  unfold exec. destruct e; simpl.
  - unfold bind at 1, maybeShowAt, bind at 1, get.
    match goal with
    | |- context [if ?b then _ else _] => destruct b
    end;
      match goal with
      | |- context [_startShowingOrUpdateHover ?x ?an ?m ?s ?f ?me c] =>
          destruct (Htrigger an m s f me) as (b & c' & -> & Hh)
      end; exists c'; auto.
  - unfold startShowingAtRange, bind.
    match goal with
    | |- context [_startShowingOrUpdateHover ?x ?an ?m ?s ?f ?me c] =>
        destruct (Htrigger an m s f me) as (b & c' & -> & Hh)
    end. exists c'. auto.
  - destruct Hhide as (c' & -> & Hh). exists c'. auto.
  - destruct Hhide as (c' & -> & Hh). exists c'. auto.
  - exfalso. apply (Hevent result). reflexivity.
  - rewrite onTokenizationChange_spec, Hvis.
    exists c. split; [reflexivity | exact Hhidden].
Qed.

Lemma only_results_show_the_hover_witness :
  exists c',
    exec (step Sample.ext
            (StartShowingAtRange (mkRange 4 3 4 3) Delayed Keyboard false))
      Sample.controller = Some c'
    /\ isVisible c' = false.
Proof.
  apply (only_results_show_the_hover Sample.ext
           (StartShowingAtRange (mkRange 4 3 4 3) Delayed Keyboard false)
           Sample.controller).
  - reflexivity.
  - discriminate.
  - discriminate.
Defined.

(** ** The candidate anchor of a pointer event *)

Lemma maybeShowAt_candidates (ext : Externals) (mouseEvent : IEditorMouseEvent)
    (c : ContentHoverController) :
  maybeShowAt ext mouseEvent c
  = _startShowingOrUpdateHover ext
      (List.hd_error
         (arraySort (fun a b => priority b - priority a)
            (anchorCandidates c mouseEvent)))
      Delayed Mouse false (Some mouseEvent) c.
Proof.
  unfold maybeShowAt, bind, get. fold (anchorCandidates c mouseEvent).
  destruct (anchorCandidates c mouseEvent); reflexivity.
Qed.

(** The first element of an array sorted by decreasing key: the first of
    the elements with the greatest key. *)
Lemma arraySort_descending_head {A : Type} (key : A -> Z) (l : list A) :
  match List.hd_error (arraySort (fun a b => key b - key a) l) with
  | None => l = []
  | Some a =>
      exists before after,
        l = before ++ a :: after
        /\ Forall (fun b => key b < key a) before
        /\ Forall (fun b => key b <= key a) after
  end.
Proof.
  induction l as [|x l IH]; simpl; [reflexivity|].
  destruct (arraySort (fun a b => key b - key a) l) as [|y rest] eqn:Esort;
    simpl in *.
  - subst l. exists [], []. repeat split; constructor.
  - destruct IH as (before & after & -> & Hbefore & Hafter).
    destruct (Z.leb_spec (key y - key x) 0) as [Hle|Hgt]; simpl.
    + exists [], (before ++ y :: after). repeat split; [constructor|].
      apply Forall_app. split.
      * eapply Forall_impl; [|exact Hbefore]. simpl. intros b Hb. lia.
      * constructor; [lia|].
        eapply Forall_impl; [|exact Hafter]. simpl. intros b Hb. lia.
    + exists (x :: before), after. repeat split; [|exact Hafter].
      constructor; [lia | exact Hbefore].
Qed.

(** X14.  [maybeShowAt] hands [_startShowingOrUpdateHover] the candidate
    anchor of greatest priority, the first of them in the order the
    candidates were collected (the participants' suggestions in ordinal
    order, then the range anchor of the pointer's target); it hands it no
    anchor exactly when there is no candidate.  The request is always
    delayed, from the mouse and without focus. *)
Theorem maybeShowAt_picks_highest_priority :
  forall (ext : Externals) (mouseEvent : IEditorMouseEvent)
         (c : ContentHoverController),
  exists chosen,
    maybeShowAt ext mouseEvent c
    = _startShowingOrUpdateHover ext chosen Delayed Mouse false
        (Some mouseEvent) c
    /\ match chosen with
       | None => anchorCandidates c mouseEvent = []
       | Some a =>
           exists before after,
             anchorCandidates c mouseEvent = before ++ a :: after
             /\ Forall (fun b => priority b < priority a) before
             /\ Forall (fun b => priority b <= priority a) after
       end.
Proof.
  intros ext mouseEvent c. eexists. split; [apply maybeShowAt_candidates|].
  apply (arraySort_descending_head priority).
Qed.

(** ** The positions computed by computeHoverRanges *)

(** The column the loop of [computeHoverRanges] ends with, started at
    [column]. *)
Lemma renderStartColumn_closed_form (line boundary : Z)
    (messages : list IHoverPart) (vars : Z * Range * option Range) :
  fst (fst (List.fold_left (computeHoverRanges_body line boundary) messages vars))
  = match List.filter (sitsOnLine line) messages with
    | [] => fst (fst vars)
    | onLine => Z.max (leastStartColumn (fst (fst vars)) onLine) boundary
    end.
Proof.
  assert (Hleast : forall parts x y,
    Z.max x boundary = Z.max y boundary ->
    Z.max (leastStartColumn x parts) boundary
    = Z.max (leastStartColumn y parts) boundary).
  { induction parts as [|m parts IH]; intros x y Hxy; simpl; [exact Hxy|].
    apply IH. lia. }
  revert vars. induction messages as [|m ms IH]; intros [[column h] forced];
    [reflexivity|].
  cbn [List.fold_left]. rewrite IH. cbn [List.filter].
  assert (Hbody :
    fst (fst (computeHoverRanges_body line boundary (column, h, forced) m))
    = if sitsOnLine line m
      then Z.max (Z.min column (startColumn (partRange m))) boundary
      else column).
  { unfold computeHoverRanges_body, sitsOnLine.
    destruct (_ && _); reflexivity. }
  rewrite Hbody. cbn [fst].
  destruct (sitsOnLine line m).
  - destruct (List.filter (sitsOnLine line) ms) as [|m' onLine].
    + reflexivity.
    + unfold leastStartColumn. cbn [List.fold_left].
      apply (Hleast (m' :: onLine)). lia.
  - reflexivity.
Qed.

Lemma forceShowAtRange_closed_form (line boundary : Z)
    (messages : list IHoverPart) (vars : Z * Range * option Range) :
  snd (List.fold_left (computeHoverRanges_body line boundary) messages vars)
  = List.fold_left
      (fun forced m => if forceShowAtRange m then Some (partRange m) else forced)
      messages (snd vars).
Proof.
  revert vars. induction messages as [|m ms IH]; intros [[column h] forced];
    [reflexivity|].
  cbn [List.fold_left]. rewrite IH. reflexivity.
Qed.

(** The last part that forces its position decides. *)
Lemma lastForcedRange_spec (messages : list IHoverPart) (start : option Range) :
  match List.fold_left
          (fun forced m =>
             if forceShowAtRange m then Some (partRange m) else forced)
          messages start with
  | None => start = None /\ Forall (fun m => forceShowAtRange m = false) messages
  | Some r =>
      (start = Some r /\ Forall (fun m => forceShowAtRange m = false) messages)
      \/ exists before m after,
           messages = before ++ m :: after
           /\ forceShowAtRange m = true
           /\ partRange m = r
           /\ Forall (fun m' => forceShowAtRange m' = false) after
  end.
Proof.
  revert start. induction messages as [|m ms IH]; intros start; simpl.
  - destruct start; [left|]; auto.
  - specialize (IH (if forceShowAtRange m then Some (partRange m) else start)).
    destruct (List.fold_left _ ms _) as [r|].
    + destruct IH as [[Hstart Hall] | (before & m' & after & -> & Hf & Hr & Hall)].
      * destruct (forceShowAtRange m) eqn:Hm.
        -- injection Hstart as <-. right. exists [], m, ms. auto.
        -- left. auto.
      * right. exists (m :: before), m', after. auto.
    + destruct IH as [Hstart Hall].
      destruct (forceShowAtRange m) eqn:Hm; [discriminate|]. auto.
Qed.

(** What [computeHoverRanges] returns on a non-empty list, in terms of
    the three loop variables. *)
Lemma computeHoverRanges_positions (ed : ICodeEditor) (anchorRange : Range)
    (m0 : IHoverPart) (ms : list IHoverPart) :
  exists ranges,
    computeHoverRanges ed anchorRange (m0 :: ms) = Some ranges
    /\ showAtPosition ranges
       = match lastForcedRange (m0 :: ms) with
         | Some r => getStartPosition r
         | None =>
             mkPosition (startLineNumber anchorRange) (startColumn anchorRange)
         end
    /\ showAtSecondaryPosition ranges
       = match lastForcedRange (m0 :: ms) with
         | Some r => getStartPosition r
         | None =>
             mkPosition (startLineNumber anchorRange)
               match List.filter (sitsOnLine (startLineNumber anchorRange))
                       (m0 :: ms) with
               | [] => startColumn anchorRange
               | onLine =>
                   Z.max (leastStartColumn (startColumn anchorRange) onLine)
                     (startColumnBoundary ed anchorRange)
               end
         end.
Proof.
  unfold computeHoverRanges, lastForcedRange.
  fold (startColumnBoundary ed anchorRange).
  match goal with
  | |- context [List.fold_left ?f ?l ?v] =>
      pose proof (renderStartColumn_closed_form
                    (startLineNumber anchorRange)
                    (startColumnBoundary ed anchorRange) l v) as Hcolumn;
      pose proof (forceShowAtRange_closed_form
                    (startLineNumber anchorRange)
                    (startColumnBoundary ed anchorRange) l v) as Hforced;
      destruct (List.fold_left f l v) as [[column h] forced]
  end.
  cbn [fst snd] in Hcolumn, Hforced. rewrite <- Hforced, <- Hcolumn.
  eexists. split; [reflexivity|]. split; reflexivity.
Qed.

(** X15.  The position the hover is shown at.  If no part forces its
    position, the hover is shown at the start of the anchor and its
    secondary position is on the anchor's line; otherwise both positions
    are the start of the range of the last part that forces its
    position, whatever the anchor. *)
Theorem forced_part_decides_position :
  forall (ed : ICodeEditor) (anchorRange : Range) (m0 : IHoverPart)
         (ms : list IHoverPart),
  exists ranges,
    computeHoverRanges ed anchorRange (m0 :: ms) = Some ranges
    /\ ((Forall (fun m => forceShowAtRange m = false) (m0 :: ms)
         /\ showAtPosition ranges
            = mkPosition (startLineNumber anchorRange) (startColumn anchorRange)
         /\ lineNumber (showAtSecondaryPosition ranges)
            = startLineNumber anchorRange)
        \/ (exists before m after,
              m0 :: ms = before ++ m :: after
              /\ forceShowAtRange m = true
              /\ Forall (fun m' => forceShowAtRange m' = false) after
              /\ showAtPosition ranges = getStartPosition (partRange m)
              /\ showAtSecondaryPosition ranges
                 = getStartPosition (partRange m))).
Proof.
  intros ed anchorRange m0 ms.
  destruct (computeHoverRanges_positions ed anchorRange m0 ms)
    as (ranges & Hsome & Hfirst & Hsecond).
  exists ranges. split; [exact Hsome|].
  pose proof (lastForcedRange_spec (m0 :: ms) None) as Hlast.
  fold (lastForcedRange (m0 :: ms)) in Hlast.
  destruct (lastForcedRange (m0 :: ms)) as [r|].
  - destruct Hlast as [[Hnone _] | (before & m & after & Hsplit & Hf & Hr & Hall)];
      [discriminate|].
    right. exists before, m, after. rewrite Hr. auto.
  - destruct Hlast as [_ Hall]. left. rewrite Hfirst, Hsecond. auto.
Qed.

Lemma leastStartColumn_le (c : Z) (parts : list IHoverPart) :
  leastStartColumn c parts <= c.
Proof.
  unfold leastStartColumn. revert c.
  induction parts as [|m parts IH]; intros c; simpl; [lia|].
  specialize (IH (Z.min c (startColumn (partRange m)))). lia.
Qed.

(** X16.  The secondary position when no part forces its position.  It is
    on the anchor's line.  Without a part that sits on that line its
    column is the anchor's start column; with such parts it is the least
    start column among the anchor and those parts, but not left of the
    first column of the view line.  It is never right of both the
    anchor's start column and that boundary. *)
Theorem secondary_position_column :
  forall (ed : ICodeEditor) (anchorRange : Range) (m0 : IHoverPart)
         (ms : list IHoverPart),
    Forall (fun m => forceShowAtRange m = false) (m0 :: ms) ->
    exists ranges,
      computeHoverRanges ed anchorRange (m0 :: ms) = Some ranges
      /\ lineNumber (showAtSecondaryPosition ranges)
         = startLineNumber anchorRange
      /\ column (showAtSecondaryPosition ranges)
         = match List.filter (sitsOnLine (startLineNumber anchorRange))
                   (m0 :: ms) with
           | [] => startColumn anchorRange
           | onLine =>
               Z.max (leastStartColumn (startColumn anchorRange) onLine)
                 (startColumnBoundary ed anchorRange)
           end
      /\ column (showAtSecondaryPosition ranges)
         <= Z.max (startColumn anchorRange) (startColumnBoundary ed anchorRange).
Proof.
  intros ed anchorRange m0 ms Hnone.
  destruct (computeHoverRanges_positions ed anchorRange m0 ms)
    as (ranges & Hsome & _ & Hsecond).
  exists ranges. split; [exact Hsome|].
  pose proof (lastForcedRange_spec (m0 :: ms) None) as Hlast.
  fold (lastForcedRange (m0 :: ms)) in Hlast.
  destruct (lastForcedRange (m0 :: ms)) as [r|].
  - exfalso.
    destruct Hlast as [[Hstart _] | (before & m & after & Hsplit & Hf & _)];
      [discriminate|].
    rewrite Hsplit in Hnone. apply Forall_app in Hnone.
    destruct Hnone as [_ Hnone]. inversion Hnone as [|? ? Hm _]. congruence.
  - rewrite Hsecond. cbn [lineNumber column].
    split; [reflexivity|]. split; [reflexivity|].
    destruct (List.filter (sitsOnLine (startLineNumber anchorRange)) (m0 :: ms))
      as [|m onLine]; [lia|].
    pose proof (leastStartColumn_le (startColumn anchorRange) (m :: onLine)).
    lia.
Qed.

Lemma secondary_position_column_witness :
  exists ranges,
    computeHoverRanges Sample.editor (mkRange 4 7 4 7) [Sample.partInside]
    = Some ranges
    /\ showAtSecondaryPosition ranges = mkPosition 4 3.
Proof.
  destruct (secondary_position_column Sample.editor (mkRange 4 7 4 7)
              Sample.partInside [])
    as (ranges & Hsome & Hline & Hcolumn & _).
  - repeat constructor.
  - exists ranges. split; [exact Hsome|].
    destruct (showAtSecondaryPosition ranges) as [l k].
    simpl in Hline, Hcolumn. rewrite Hline, Hcolumn. reflexivity.
Defined.

(** ** The proximity test of the widget *)

(** X17.  With a recorded initial pointer position, the pointer is judged
    to be getting closer exactly when its distance to the widget is at
    most the sum the code computes, in doubles, of the closest distance
    so far and 4 (the closest distance being that of the initial
    position, if none was recorded yet).  The test records a closest
    distance that never exceeds the previous one, and that does not
    exceed the new distance when the pointer is judged closer; what is
    displayed and the initial position are kept. *)
Theorem pointer_is_closer_within_tolerance :
  forall (distance : Q -> Q -> Q -> Q -> Q -> Q -> Q) (plus : Q -> Q -> Q)
         (x y : Q) (w : ContentHoverWidget.t) (d : ContentHoverVisibleData.t)
         (initialX initialY : Q),
    ContentHoverWidget._visibleData w = Some d ->
    ContentHoverVisibleData.initialMousePosX d = Some initialX ->
    ContentHoverVisibleData.initialMousePosY d = Some initialY ->
    let closest :=
      match ContentHoverVisibleData.closestMouseDistance d with
      | Some c => c
      | None => distanceToWidget distance w initialX initialY
      end in
    exists d' closest',
      snd (ContentHoverWidget.isMouseGettingCloser distance plus x y w)
      = ContentHoverWidget.mk (Some d')
          (ContentHoverWidget.contentsDomNode w)
          (ContentHoverWidget.domNodePagePosition w)
      /\ (fst (ContentHoverWidget.isMouseGettingCloser distance plus x y w)
          = true
          <-> (distanceToWidget distance w x y <= plus closest 4)%Q)
      /\ ContentHoverVisibleData.closestMouseDistance d' = Some closest'
      /\ (closest' <= closest)%Q
      /\ (fst (ContentHoverWidget.isMouseGettingCloser distance plus x y w)
          = true
          -> (closest' <= distanceToWidget distance w x y)%Q)
      /\ shownData d' = shownData d
      /\ ContentHoverVisibleData.initialMousePosX d' = Some initialX
      /\ ContentHoverVisibleData.initialMousePosY d' = Some initialY.
Proof.
  intros distance plus x y w d initialX initialY Hd Hx Hy closest.
  unfold ContentHoverWidget.isMouseGettingCloser. rewrite Hd, Hx, Hy.
  fold (distanceToWidget distance w initialX initialY).
  fold (distanceToWidget distance w x y). fold closest.
  unfold Qltb.
  destruct (Qle_bool (distanceToWidget distance w x y) (plus closest 4%Q))
    eqn:Hle;
    cbn [negb fst snd].
  - eexists. eexists. split; [reflexivity|].
    split; [split; [intros _; apply Qle_bool_iff; exact Hle | reflexivity]|].
    split; [reflexivity|].
    split; [apply Q.le_min_l|].
    split; [intros _; apply Q.le_min_r|].
    unfold shownData, ContentHoverVisibleData.withClosestMouseDistance.
    simpl. auto.
  - eexists. eexists. split; [reflexivity|].
    split.
    { split; [discriminate|]. intros H. apply Qle_bool_iff in H. congruence. }
    split; [reflexivity|].
    split; [apply Qle_refl|].
    split; [discriminate|].
    unfold shownData, ContentHoverVisibleData.withClosestMouseDistance.
    simpl. auto.
Qed.

Lemma pointer_is_closer_within_tolerance_witness :
  fst (ContentHoverWidget.isMouseGettingCloser
         (computeDistanceFromPointToRectangle Sample.ext)
         (plusDouble Sample.ext) 90 90
         (_widget Trace.shownAtPointer)) = true
  <-> (distanceToWidget (computeDistanceFromPointToRectangle Sample.ext)
         (_widget Trace.shownAtPointer) 90 90
       <= plusDouble Sample.ext
            (distanceToWidget (computeDistanceFromPointToRectangle Sample.ext)
               (_widget Trace.shownAtPointer) 100 100) 4)%Q.
Proof.
  edestruct (pointer_is_closer_within_tolerance
               (computeDistanceFromPointToRectangle Sample.ext)
               (plusDouble Sample.ext) 90 90
               (_widget Trace.shownAtPointer))
    as (d' & closest' & _ & Hiff & _); [reflexivity .. |].
  exact Hiff.
Defined.

(** X18.  When the hover was shown without a pointer position (from the
    keyboard), the first pointer event is never judged closer: it only
    records its position.  The next one is judged against that position:
    it is closer exactly when its distance to the widget is at most the
    sum the code computes, in doubles, of the distance of the first
    and 4. *)
Theorem first_pointer_event_only_records :
  forall (distance : Q -> Q -> Q -> Q -> Q -> Q -> Q) (plus : Q -> Q -> Q)
         (x1 y1 x2 y2 : Q) (w : ContentHoverWidget.t)
         (d : ContentHoverVisibleData.t),
    ContentHoverWidget._visibleData w = Some d ->
    ContentHoverVisibleData.initialMousePosX d = None
    \/ ContentHoverVisibleData.initialMousePosY d = None ->
    ContentHoverVisibleData.closestMouseDistance d = None ->
    let first :=
      ContentHoverWidget.isMouseGettingCloser distance plus x1 y1 w in
    let second :=
      ContentHoverWidget.isMouseGettingCloser distance plus x2 y2 (snd first) in
    fst first = false
    /\ (fst second = true
        <-> (distanceToWidget distance w x2 y2
             <= plus (distanceToWidget distance w x1 y1) 4)%Q).
Proof.
  intros distance plus x1 y1 x2 y2 w d Hd Hnone Hclosest first second.
  assert (Hfirst : first
    = (false,
       ContentHoverWidget._setVisibleData
         (Some (ContentHoverVisibleData.withInitialMousePos x1 y1 d)) w)).
  { unfold first, ContentHoverWidget.isMouseGettingCloser. rewrite Hd.
    destruct Hnone as [-> | ->];
      destruct (ContentHoverVisibleData.initialMousePosX d);
      destruct (ContentHoverVisibleData.initialMousePosY d);
      reflexivity || discriminate. }
  split; [rewrite Hfirst; reflexivity|].
  unfold second. rewrite Hfirst. cbn [snd].
  unfold ContentHoverWidget.isMouseGettingCloser. simpl.
  rewrite Hclosest. unfold Qltb, distanceToWidget.
  destruct (Qle_bool _ _) eqn:Hle; cbn [negb fst].
  - split; [intros _; apply Qle_bool_iff; exact Hle | reflexivity].
  - split; [discriminate|]. intros H. apply Qle_bool_iff in H. congruence.
Qed.

Lemma first_pointer_event_only_records_witness :
  fst (ContentHoverWidget.isMouseGettingCloser
         (computeDistanceFromPointToRectangle Sample.ext)
         (plusDouble Sample.ext) 50 50
         (_widget Sample.visibleComplete)) = false.
Proof.
  edestruct (first_pointer_event_only_records
               (computeDistanceFromPointToRectangle Sample.ext)
               (plusDouble Sample.ext) 50 50 40 40
               (_widget Sample.visibleComplete))
    as [Hfirst _]; [reflexivity | left; reflexivity | reflexivity |].
  exact Hfirst.
Defined.

(** ** The loading message *)

Lemma firstLoadingMessage_spec (participants : list IEditorHoverParticipant)
    (a : HoverAnchor) :
  match firstLoadingMessage participants a with
  | None => noLoadingMessage a participants
  | Some m =>
      exists before p after create,
        participants = before ++ p :: after
        /\ noLoadingMessage a before
        /\ createLoadingMessage p = Some create
        /\ create a = Some m
  end.
Proof.
  unfold noLoadingMessage.
  induction participants as [|p ps IH]; simpl; [constructor|].
  destruct (createLoadingMessage p) as [create|] eqn:Ecreate.
  - destruct (create a) as [m|] eqn:Em.
    + exists [], p, ps, create. repeat split; auto.
    + destruct (firstLoadingMessage ps a) as [m|].
      * destruct IH as (before & q & after & create' & -> & Hb & Hc & Hm).
        exists (p :: before), q, after, create'. repeat split; auto.
        constructor; [rewrite Ecreate; exact Em | exact Hb].
      * constructor; [rewrite Ecreate; exact Em | exact IH].
  - destruct (firstLoadingMessage ps a) as [m|].
    + destruct IH as (before & q & after & create' & -> & Hb & Hc & Hm).
      exists (p :: before), q, after, create'. repeat split; auto.
      constructor; [rewrite Ecreate; exact I | exact Hb].
    + constructor; [rewrite Ecreate; exact I | exact IH].
Qed.

(** X19.  [_addLoadingMessage] never drops or reorders a part: it returns
    the parts it was given, followed by at most one loading message, the
    one created for the computer's anchor by the first participant, in
    ordinal order, that creates one.  Without an anchor, or when no
    participant creates a message, it returns the parts unchanged. *)
Theorem loading_message_is_appended :
  forall (c : ContentHoverController) (result : list IHoverPart),
    match ContentHoverComputer.anchor (_computer c) with
    | None => _addLoadingMessage c result = result
    | Some a =>
        (noLoadingMessage a (_participants c)
         /\ _addLoadingMessage c result = result)
        \/ exists before p after create m,
             _participants c = before ++ p :: after
             /\ noLoadingMessage a before
             /\ createLoadingMessage p = Some create
             /\ create a = Some m
             /\ _addLoadingMessage c result = result ++ [m]
    end.
Proof.
  intros c result. unfold _addLoadingMessage.
  destruct (ContentHoverComputer.anchor (_computer c)) as [a|]; [|reflexivity].
  pose proof (firstLoadingMessage_spec (_participants c) a) as Hfirst.
  destruct (firstLoadingMessage (_participants c) a) as [m|].
  - right. destruct Hfirst as (before & p & after & create & Hs & Hb & Hc & Hm).
    exists before, p, after, create, m. auto.
  - left. auto.
Qed.

(** ** Line decorations *)

(** X20.  Narrowing the anchor never loses a decoration: if two anchors
    of the same kind start on the same line and the column span of the
    second lies within that of the first, every decoration kept for the
    first is kept for the second. *)
Theorem narrower_anchor_keeps_decorations :
  forall (ed : ICodeEditor) (a a' : HoverAnchor) (d : IModelDecoration),
    anchorType a' = anchorType a ->
    supportsMarkerHover a' = supportsMarkerHover a ->
    startLineNumber (anchorRange a') = startLineNumber (anchorRange a) ->
    startColumn (anchorRange a) <= startColumn (anchorRange a') ->
    endColumn (anchorRange a') <= endColumn (anchorRange a) ->
    In d (ContentHoverComputer._getLineDecorations ed a) ->
    In d (ContentHoverComputer._getLineDecorations ed a').
Proof.
  intros ed a a' d Htype Hflag Hline Hstart Hend.
  unfold ContentHoverComputer._getLineDecorations.
  rewrite Htype, Hflag, Hline.
  destruct (negb _ && negb _); [auto|].
  destruct (_ >? _); [auto|].
  rewrite !filter_In. intros [Hin Hkeep]. split; [exact Hin|].
  revert Hkeep. unfold ContentHoverComputer.keepsDecoration.
  destruct (isWholeLine d); [auto|].
  destruct (showIfCollapsed d);
    rewrite !Z.gtb_ltb;
    repeat match goal with
      | |- context [?x <? ?y] => destruct (Z.ltb_spec x y)
      end; cbn [orb]; intros Hk; try discriminate; try reflexivity; lia.
Qed.

Lemma narrower_anchor_keeps_decorations_witness :
  In Sample.wholeLine
    (ContentHoverComputer._getLineDecorations Sample.editor Sample.anchorWide)
  /\ In Sample.wholeLine
       (ContentHoverComputer._getLineDecorations Sample.editor Sample.anchorA).
Proof.
  assert (Hwide : In Sample.wholeLine
            (ContentHoverComputer._getLineDecorations Sample.editor
               Sample.anchorWide)) by (left; reflexivity).
  split; [exact Hwide|].
  apply (narrower_anchor_keeps_decorations Sample.editor Sample.anchorWide
           Sample.anchorA Sample.wholeLine);
    try reflexivity; simpl; try lia.
  exact Hwide.
Defined.

(** X21.  A collapsed decoration (one column, not whole-line) on an
    existing line is kept for an empty Range anchor on that line exactly
    when the anchor's column is the decoration's column, or next to it
    if the decoration is marked show-if-collapsed. *)
Theorem collapsed_decoration_tolerance :
  forall (ed : ICodeEditor) (a : HoverAnchor) (d : IModelDecoration)
         (line j k : Z),
    anchorType a = AnchorRange ->
    anchorRange a = mkRange line j line j ->
    decorationRange d = mkRange line k line k ->
    isWholeLine d = false ->
    line <= getLineCount ed ->
    In d (getLineDecorations ed line) ->
    (In d (ContentHoverComputer._getLineDecorations ed a)
     <-> Z.abs (j - k) <= (if showIfCollapsed d then 1 else 0)).
Proof.
  intros ed a d line j k Htype Hrange Hdeco Hwhole Hline Hin.
  unfold ContentHoverComputer._getLineDecorations.
  rewrite Htype, Hrange. cbn [HoverAnchorType_eqb negb andb startLineNumber].
  rewrite Z.gtb_ltb.
  destruct (Z.ltb_spec (getLineCount ed) line); [lia|].
  rewrite filter_In. unfold ContentHoverComputer.keepsDecoration.
  rewrite Hwhole, Hrange, Hdeco.
  cbn [startLineNumber endLineNumber startColumn endColumn].
  rewrite Z.eqb_refl.
  destruct (showIfCollapsed d);
    rewrite !Z.gtb_ltb;
    repeat match goal with
      | |- context [?x <? ?y] => destruct (Z.ltb_spec x y)
      end; cbn [orb];
    split; intros Hk; try (destruct Hk as [_ Hk]); try discriminate;
    try (split; [exact Hin | reflexivity]); lia.
Qed.

Lemma collapsed_decoration_tolerance_witness :
  In (mkDecoration (mkRange 4 4 4 4) false true)
     (ContentHoverComputer._getLineDecorations
        (mkEditor true 10 (fun _ => 80)
           (fun _ => [mkDecoration (mkRange 4 4 4 4) false true])
           (fun _ => 1) true false 8%Q)
        Sample.anchorA).
Proof.
  apply (collapsed_decoration_tolerance
           (mkEditor true 10 (fun _ => 80)
              (fun _ => [mkDecoration (mkRange 4 4 4 4) false true])
              (fun _ => 1) true false 8%Q)
           Sample.anchorA (mkDecoration (mkRange 4 4 4 4) false true) 4 3 4);
    try reflexivity; simpl; try lia.
  left. reflexivity.
Defined.

(** ** What a filter returns *)

(** X22.  [filter] returns either the unfiltered original itself, when
    all of its parts are valid for the anchor, allocating nothing; or one
    new [FilteredHoverResult] made directly over the unfiltered original,
    with the original's anchor and completeness and strictly fewer parts.
    A filtered result is thus never made over another filtered result. *)
Theorem filter_returns_original_or_one_new_object :
  forall (R : HoverResult) (A : HoverAnchor) (fresh : nat),
    (HoverResult_filter R A fresh = (unfiltered R, fresh)
     /\ keptParts R A = resultMessages (unfiltered R))
    \/ (HoverResult_filter R A fresh
        = (FilteredHoverResult_new fresh (unfiltered R)
             (resultAnchor (unfiltered R)) (keptParts R A)
             (resultIsComplete (unfiltered R)),
           S fresh)
        /\ (List.length (keptParts R A)
            < List.length (resultMessages (unfiltered R)))%nat).
Proof.
  intros R A fresh. unfold keptParts.
  induction R as [oid a ms c | oid original IH a ms c]; simpl.
  - destruct (Nat.eqb_spec
                (List.length (List.filter (fun m => isValidForHoverAnchor m A) ms))
                (List.length ms)) as [E|E].
    + left. split; [reflexivity|]. apply filter_same_length. exact E.
    + right. split; [reflexivity|].
      pose proof (filter_length_le (fun m => isValidForHoverAnchor m A) ms). lia.
  - exact IH.
Qed.

(** ** The current result is stored non-empty *)

(** C10.  From a state whose current result, if any, has a message:
    every operation of the controller returns and keeps that invariant;
    [_setCurrentResult], handed a result that is not the current object,
    stores [null] and hides the widget when the result has no message,
    and stores the result itself when it has one; rendering an empty list
    of parts throws, [computeHoverRanges] reading the range of a first
    message that is not there.  As every operation returns, rendering
    never meets an empty list. *)
Theorem current_result_is_never_empty :
  forall (ext : Externals) (e : Event) (c : ContentHoverController),
    currentResultNonEmpty c ->
    (exists c',
       exec (step ext e) c = Some c' /\ currentResultNonEmpty c')
    /\ (forall r,
          resultMessages r = [] ->
          sameReference (_currentResult c) (Some r) = false ->
          exists c',
            _setCurrentResult (Some r) c = Some (tt, c')
            /\ _currentResult c' = None
            /\ isVisible c' = false)
    /\ (forall r,
          resultMessages r <> [] ->
          sameReference (_currentResult c) (Some r) = false ->
          exists c',
            _setCurrentResult (Some r) c = Some (tt, c')
            /\ _currentResult c' = Some r)
    /\ (forall hr,
          exists c',
            _setCurrentResult hr c = Some (tt, c')
            /\ currentResultNonEmpty c')
    /\ (forall a, _renderMessages a [] c = None)
    /\ (forall anchorRange,
          computeHoverRanges (_editor c) anchorRange [] = None).
Proof.
  intros ext e c Hc.
  split; [|split; [|split; [|split; [|split]]]].
  - destruct (step_ok (static c) ext e c (conj eq_refl Hc))
      as ([] & c' & Hstep & _ & Hc').
    exists c'. unfold exec. rewrite Hstep. split; [reflexivity | exact Hc'].
  - intros r Hempty Hother.
    destruct (setCurrentResult_spec (Some r) c) as (c' & E & Hcases).
    exists c'. split; [exact E|].
    destruct Hcases as [[Hsame _] | [_ [[_ ->] | (r' & Hstored & _)]]].
    + congruence.
    + split; [reflexivity|]. unfold isVisible. simpl. apply isVisible_hide.
    + simpl in Hstored. rewrite Hempty in Hstored. discriminate.
  - intros r Hne Hother.
    destruct (setCurrentResult_spec (Some r) c) as (c' & E & Hcases).
    exists c'. split; [exact E|].
    destruct Hcases as [[Hsame _] | [_ [[Hstored _] | (r' & Hstored & _ & Hc')]]].
    + congruence.
    + simpl in Hstored.
      destruct (Nat.eqb_spec (List.length (resultMessages r)) 0) as [E0|E0];
        [|discriminate].
      destruct (resultMessages r); [congruence | discriminate].
    + apply storedResult_some in Hstored. injection Hstored as <-.
      destruct Hc' as [-> | (fr & vd & _ & ->)]; reflexivity.
  - intros hr.
    destruct (setCurrentResult_ok (static c) hr c (conj eq_refl Hc))
      as ([] & c' & E & _ & Hc').
    exists c'. split; [exact E | exact Hc'].
  - intros a. reflexivity.
  - intros anchorRange. reflexivity.
Qed.

Lemma current_result_is_never_empty_witness :
  currentResultNonEmpty Sample.visibleComplete
  /\ exists c',
       _setCurrentResult (Some (HoverResult_new 7 Sample.anchorFar [] true))
         Sample.visibleComplete = Some (tt, c')
       /\ _currentResult c' = None
       /\ isVisible c' = false.
Proof.
  assert (H : currentResultNonEmpty Sample.visibleComplete) by discriminate.
  split; [exact H|].
  destruct (current_result_is_never_empty Sample.ext Hide
              Sample.visibleComplete H)
    as (_ & Hempty & _).
  apply Hempty; reflexivity.
Defined.
